(** * Urban tree planting: priority scoring core

    A shallow embedding of the numeric core of the repository
    (utils/geo_utils.py, core/transformer.py, core/mask_generator.py,
    core/detector.py, core/priority_calculator.py, core/visualizer.py) and
    the properties
    checked against it.

    Number model.  Python floats and numpy float arrays are read as exact
    numbers: rationals ([Q]) wherever the code only uses field operations,
    comparisons, [int] and [round]; real numbers ([R]) in the priority
    calculator, which needs [sqrt] and [exp], and in the conversions
    between metres and degrees, which need [cos].  Pixel indices, sizes and
    counts are integers ([Z]).  A Python exception is the result [None]. *)

From Stdlib Require Import ZArith QArith Qround Qabs List Bool Lia Psatz.
From Stdlib Require Import String Permutation Sorted.
From Stdlib Require Import Reals.
Import ListNotations.

Set Implicit Arguments.

(* ================================================================== *)
(** * Part I: the program *)
(* ================================================================== *)

(** ** utils/geo_utils.py *)

Module Geo.
Local Open Scope Q_scope.

(** Python [int(x)] on a float: truncation toward zero. *)
Definition py_int (x : Q) : Z :=
  if Qle_bool 0 x then Qfloor x else Qceiling x.

(** Python [round(x)]: the nearest integer, a tie going to the even one. *)
Definition py_round (x : Q) : Z :=
  let f := Qfloor x in
  let r := x - inject_Z f in
  match Qcompare r (1 # 2) with
  | Lt => f
  | Gt => (f + 1)%Z
  | Eq => if Z.even f then f else (f + 1)%Z
  end.

(** Float division; a zero divisor raises. *)
Definition py_div (a b : Q) : option Q :=
  if Qeq_bool b 0 then None else Some (a / b).

(** (min_lon, min_lat, max_lon, max_lat) *)
Record bounds := Bounds {
  min_lon : Q; min_lat : Q; max_lon : Q; max_lat : Q
}.

Definition latlon_to_pixel (lat lon min_lat max_lat min_lon max_lon : Q)
    (img_height img_width : Z) : option (Z * Z) :=
  (* Normalize to 0-1 range *)
  match py_div (lon - min_lon) (max_lon - min_lon) with
  | None => None
  | Some x_norm =>
    match py_div (max_lat - lat) (max_lat - min_lat) with
    | None => None
    | Some y_norm =>
      (* Convert to pixel coordinates *)
      let x_pixel := py_int (x_norm * inject_Z img_width) in
      let y_pixel := py_int (y_norm * inject_Z img_height) in
      Some (x_pixel, y_pixel)
    end
  end.

Definition pixel_to_latlon (x_pixel y_pixel min_lat max_lat min_lon max_lon : Q)
    (img_height img_width : Z) : option (Q * Q) :=
  (* Normalize pixel coordinates to 0-1 *)
  match py_div x_pixel (inject_Z img_width) with
  | None => None
  | Some x_norm =>
    match py_div y_pixel (inject_Z img_height) with
    | None => None
    | Some y_norm =>
      let lon := min_lon + x_norm * (max_lon - min_lon) in
      let lat := max_lat - y_norm * (max_lat - min_lat) in
      Some (lat, lon)
    end
  end.


End Geo.

(** ** utils/geo_utils.py: metres and degrees

    The conversions between metric offsets and degree offsets and the
    bounds of the downloaded image.  They use [np.cos], so the numbers are
    real numbers; numpy divides by a zero cosine without raising, and the
    properties below are stated for a non-zero cosine. *)

Module Metric.
Local Open Scope R_scope.

(** [np.radians] *)
Definition radians (deg : R) : R := deg * PI / 180.

Definition meters_to_degrees (meters_north meters_east center_lat : R)
    : R * R :=
  let lat_offset := meters_north / 111000 in
  let lon_offset := meters_east / (111000 * cos (radians center_lat)) in
  (lat_offset, lon_offset).

Definition degrees_to_meters (lat_offset lon_offset center_lat : R) : R * R :=
  let meters_north := lat_offset * 111000 in
  let meters_east := lon_offset * 111000 * cos (radians center_lat) in
  (meters_north, meters_east).

(** Web Mercator: meters per pixel at zoom 0 on the equator, 156543.03392 *)
Definition equator_meters_per_pixel : R := 15654303392 / 100000.

Definition calculate_image_bounds (center_lat center_lon : R)
    (zoom image_width image_height scale : Z) : R * R * R * R :=
  let effective_width := (image_width * scale)%Z in
  let effective_height := (image_height * scale)%Z in
  let meters_per_pixel :=
    equator_meters_per_pixel * cos (radians center_lat) / powerRZ 2 zoom in
  let width_meters := (IZR effective_width / 2) * meters_per_pixel in
  let height_meters := (IZR effective_height / 2) * meters_per_pixel in
  let lat_offset := height_meters / 111000 in
  let lon_offset := width_meters / (111000 * cos (radians center_lat)) in
  (center_lon - lon_offset, center_lat - lat_offset,
   center_lon + lon_offset, center_lat + lat_offset).

(** core/transformer.py: GeometryTransformer.calculate_bounds *)
Definition calculate_bounds (center_lat center_lon : R) (image_size : Z * Z)
    : R * R * R * R :=
  let '(img_width, img_height) := image_size in
  calculate_image_bounds center_lat center_lon 18
                         (img_width / 2)%Z (img_height / 2)%Z 2.

End Metric.

(** ** Error propagation

    A computation that raises is [None]; [x <- c ;; k] runs [k] on the
    value of [c] and passes an exception through. *)

Definition bind {A B : Type} (c : option A) (k : A -> option B) : option B :=
  match c with
  | Some a => k a
  | None => None
  end.

Notation "x <- c ;; k" := (bind c (fun x => k))
  (at level 61, c at next level, right associativity).
Notation "' p <- c ;; k" := (bind c (fun x => let p := x in k))
  (at level 61, p pattern, c at next level, right associativity).

(** A [for] loop whose body may raise: the state is threaded left to right. *)
Fixpoint for_each {A S : Type} (items : list A) (body : S -> A -> option S)
    (s : S) : option S :=
  match items with
  | [] => Some s
  | a :: rest => s' <- body s a ;; for_each rest body s'
  end.

(** ** Dense two-dimensional arrays (numpy)

    An array is its shape [(height, width)] and its entries, [get a y x]
    being [a[y, x]].  Entries outside the shape are never read by the
    program on arrays of matching shapes. *)

Module Np.

Record ndarray (A : Type) := Array {
  height : Z;
  width : Z;
  get : Z -> Z -> A
}.

Arguments Array {A} height width get.

Definition same_shape {A B : Type} (a : ndarray A) (b : ndarray B) : Prop :=
  height a = height b /\ width a = width b.

Definition in_shape {A : Type} (a : ndarray A) (y x : Z) : Prop :=
  (0 <= y < height a)%Z /\ (0 <= x < width a)%Z.

(** [np.full((h, w), v)]; [np.zeros] is [full] at zero or [false]. *)
Definition full {A : Type} (h w : Z) (v : A) : ndarray A :=
  Array h w (fun _ _ => v).

(** [np.zeros_like(a, dtype=...)] *)
Definition full_like {A B : Type} (a : ndarray A) (v : B) : ndarray B :=
  Array (height a) (width a) (fun _ _ => v).

(** Elementwise operations.  The operands have one shape in every call
    of the program; the result takes the shape of the first. *)
Definition map {A B : Type} (f : A -> B) (a : ndarray A) : ndarray B :=
  Array (height a) (width a) (fun y x => f (get a y x)).

Definition zip_with {A B C : Type} (f : A -> B -> C)
    (a : ndarray A) (b : ndarray B) : ndarray C :=
  Array (height a) (width a) (fun y x => f (get a y x) (get b y x)).

(** [~a], [a & b], [a | b] on boolean arrays *)
Definition invert (a : ndarray bool) : ndarray bool := map negb a.
Definition and (a b : ndarray bool) : ndarray bool := zip_with andb a b.
Definition or (a b : ndarray bool) : ndarray bool := zip_with orb a b.

(** [range(n)] *)
Definition range (n : Z) : list Z := List.map Z.of_nat (seq 0 (Z.to_nat n)).

(** All index pairs [(y, x)] of an array, in row-major order. *)
Definition indices {A : Type} (a : ndarray A) : list (Z * Z) :=
  flat_map (fun y => List.map (pair y) (range (width a))) (range (height a)).

(** [np.any(a)] *)
Definition any (a : ndarray bool) : bool :=
  existsb (fun p => get a (fst p) (snd p)) (indices a).

(** [score[cond] = v]: assignment through a boolean index array. *)
Definition assign_where {A : Type} (score : ndarray A) (cond : ndarray bool)
    (v : A) : ndarray A :=
  Array (height score) (width score)
        (fun y x => if get cond y x then v else get score y x).

End Np.

(** ** core/transformer.py: street classification *)

Module Streets.
Local Open Scope string_scope.

(** config/settings.py *)
Definition PEDESTRIAN_PRIORITY_TYPES : list string :=
  ["footway"; "pedestrian"; "living_street"; "path"; "steps"].
Definition LOW_TRAFFIC_TYPES : list string :=
  ["residential"; "tertiary"; "unclassified"; "service"].
Definition MEDIUM_TRAFFIC_TYPES : list string :=
  ["secondary"; "secondary_link"].
Definition HIGH_TRAFFIC_TYPES : list string :=
  ["primary"; "primary_link"; "trunk"; "trunk_link"; "motorway"; "motorway_link"].

(** The value stored under a row's [highway] key: a string, a list of
    values, or a null ([None], NaN). *)
#[local] Unset Elimination Schemes.
Inductive tag_value :=
| TagStr (s : string)
| TagList (l : list tag_value)
| TagNull.
#[local] Set Elimination Schemes.

(** A row of the streets frame.  [highway = None]: the row has no
    [highway] entry at all. *)
Record street := Street {
  osmid : Z;
  highway : option tag_value
}.

Definition _get_highway_type (row : street) : tag_value :=
  let highway_type :=
    match highway row with
    | Some v => v
    | None => TagNull
    end in
  (* Handle list types *)
  match highway_type with
  | TagList l =>
    match l with
    | v :: _ => v
    | [] => TagNull
    end
  | v => v
  end.

(** [v in types] for a list of strings: only an equal string is a member. *)
Definition py_in (v : tag_value) (types : list string) : bool :=
  match v with
  | TagStr s => existsb (String.eqb s) types
  | _ => false
  end.

Record street_dict := StreetDict {
  pedestrian : list street;
  low_traffic : list street;
  medium_traffic : list street;
  high_traffic : list street
}.

(** A frame built from a list of rows holds those rows in order. *)
Definition _to_gdf (rows_list : list street) : list street :=
  match rows_list with
  | [] => []
  | _ => rows_list
  end.

Definition _empty_street_dict : street_dict := StreetDict [] [] [] [].

(** One iteration of the categorising loop: the four lists after [row]. *)
Definition categorize (acc : street_dict) (row : street) : street_dict :=
  let highway_type := _get_highway_type row in
  let '(StreetDict pedestrian_streets low_traffic_streets
                   medium_traffic_streets high_traffic_streets) := acc in
  if py_in highway_type PEDESTRIAN_PRIORITY_TYPES then
    StreetDict (pedestrian_streets ++ [row]) low_traffic_streets
               medium_traffic_streets high_traffic_streets
  else if py_in highway_type LOW_TRAFFIC_TYPES then
    StreetDict pedestrian_streets (low_traffic_streets ++ [row])
               medium_traffic_streets high_traffic_streets
  else if py_in highway_type MEDIUM_TRAFFIC_TYPES then
    StreetDict pedestrian_streets low_traffic_streets
               (medium_traffic_streets ++ [row]) high_traffic_streets
  else if py_in highway_type HIGH_TRAFFIC_TYPES then
    StreetDict pedestrian_streets low_traffic_streets
               medium_traffic_streets (high_traffic_streets ++ [row])
  else
    (* Unknown type -> default to low traffic *)
    StreetDict pedestrian_streets (low_traffic_streets ++ [row])
               medium_traffic_streets high_traffic_streets.

Definition filter_streets_by_type (streets_gdf : list street) : street_dict :=
  if (List.length streets_gdf =? 0)%nat then _empty_street_dict
  else
    let r := fold_left categorize streets_gdf (StreetDict [] [] [] []) in
    StreetDict (_to_gdf (pedestrian r)) (_to_gdf (low_traffic r))
               (_to_gdf (medium_traffic r)) (_to_gdf (high_traffic r)).

(** Which of the four lists a row is appended to, read off the chain of
    tests in the loop. *)
Definition goes_pedestrian (row : street) : bool :=
  py_in (_get_highway_type row) PEDESTRIAN_PRIORITY_TYPES.
Definition goes_medium (row : street) : bool :=
  negb (py_in (_get_highway_type row) PEDESTRIAN_PRIORITY_TYPES)
  && negb (py_in (_get_highway_type row) LOW_TRAFFIC_TYPES)
  && py_in (_get_highway_type row) MEDIUM_TRAFFIC_TYPES.
Definition goes_high (row : street) : bool :=
  negb (py_in (_get_highway_type row) PEDESTRIAN_PRIORITY_TYPES)
  && negb (py_in (_get_highway_type row) LOW_TRAFFIC_TYPES)
  && negb (py_in (_get_highway_type row) MEDIUM_TRAFFIC_TYPES)
  && py_in (_get_highway_type row) HIGH_TRAFFIC_TYPES.
Definition goes_low (row : street) : bool :=
  negb (goes_pedestrian row) && negb (goes_medium row) && negb (goes_high row).

(** The tag of a row is in none of the four fixed sets. *)
Definition unknown_type (row : street) : Prop :=
  py_in (_get_highway_type row) PEDESTRIAN_PRIORITY_TYPES = false /\
  py_in (_get_highway_type row) LOW_TRAFFIC_TYPES = false /\
  py_in (_get_highway_type row) MEDIUM_TRAFFIC_TYPES = false /\
  py_in (_get_highway_type row) HIGH_TRAFFIC_TYPES = false.

End Streets.

(** ** core/mask_generator.py: rasterisation *)

Module Masks.

#[local] Unset Elimination Schemes.
Inductive geometry :=
| Point (x y : Q)
| LineString (coords : list (Q * Q))
| Polygon (exterior : list (Q * Q))
| MultiPolygon (geoms : list geometry)
| OtherGeometry.
#[local] Set Elimination Schemes.

(** A PIL image as far as the generator reads it: [size = (width, height)]. *)
Record image := Image { size : Z * Z }.

Section Rasterise.

(** Library operations the generator calls: PIL's polygon fill on a
    grey-level canvas, shapely's [buffer], geopandas' [to_crs]. *)
Variable draw_polygon : list (Z * Z) -> Z -> Np.ndarray Z -> Np.ndarray Z.
Variable buffer : geometry -> Q -> geometry.
Variable to_crs : list geometry -> string -> list geometry.

(** [[latlon_to_pixel(lat, lon, ...) for lon, lat in exterior_coords]] *)
Fixpoint project_coords (coords : list (Q * Q)) (b : Geo.bounds)
    (img_height img_width : Z) : option (list (Z * Z)) :=
  match coords with
  | [] => Some []
  | (lon, lat) :: rest =>
    p <- Geo.latlon_to_pixel lat lon (Geo.min_lat b) (Geo.max_lat b)
           (Geo.min_lon b) (Geo.max_lon b) img_height img_width ;;
    ps <- project_coords rest b img_height img_width ;;
    Some (p :: ps)
  end.

(** The body of the inner loop over [polygons]. *)
Definition draw_one (b : Geo.bounds) (img_height img_width : Z)
    (st : Np.ndarray Z * Z) (poly : geometry) : option (Np.ndarray Z * Z) :=
  let '(mask, count) := st in
  match poly with
  | Polygon exterior_coords =>
    pixel_coords <- project_coords exterior_coords b img_height img_width ;;
    (* Draw filled polygon in white *)
    if (3 <=? Z.of_nat (List.length pixel_coords))%Z then
      Some (draw_polygon pixel_coords 255 mask, (count + 1)%Z)
    else Some (mask, count)
  | _ => Some (mask, count)
  end.

(** The body of the outer loop over the rows of the frame. *)
Definition draw_row (b : Geo.bounds) (img_height img_width : Z)
    (st : Np.ndarray Z * Z) (geom : geometry) : option (Np.ndarray Z * Z) :=
  match geom with
  | MultiPolygon geoms => for_each geoms (draw_one b img_height img_width) st
  | Polygon _ => for_each [geom] (draw_one b img_height img_width) st
  | LineString _ =>
    (* For streets, buffer to create polygon *)
    for_each [buffer geom (5 # 100000)] (draw_one b img_height img_width) st
  | _ => Some st
  end.

Definition create_mask (geometries_gdf : list geometry) (satellite_img : image)
    (b : Geo.bounds) : option (Np.ndarray bool * Z) :=
  if (List.length geometries_gdf =? 0)%nat then
    let '(img_width, img_height) := size satellite_img in
    Some (Np.full img_height img_width false, 0%Z)
  else
    let '(img_width, img_height) := size satellite_img in
    (* Create mask image (black background) *)
    let mask := Np.full img_height img_width 0%Z in
    '(mask, count) <-
      for_each geometries_gdf (draw_row b img_height img_width) (mask, 0%Z) ;;
    (* Convert to boolean array *)
    let mask_array := Np.map (fun v => (0 <? v)%Z) mask in
    Some (mask_array, count).

Definition create_street_mask (streets_gdf : list geometry)
    (satellite_img : image) (b : Geo.bounds) (buffer_m : Q)
    : option (Np.ndarray bool * Z) :=
  if (List.length streets_gdf =? 0)%nat then
    let '(img_width, img_height) := size satellite_img in
    Some (Np.full img_height img_width false, 0%Z)
  else
    (* Project to UTM for accurate buffering *)
    let streets_utm := to_crs streets_gdf "EPSG:32648" in
    (* Apply buffer *)
    let streets_buffered := List.map (fun g => buffer g buffer_m) streets_utm in
    (* Project back to WGS84 *)
    let streets_buffered := to_crs streets_buffered "EPSG:4326" in
    create_mask streets_buffered satellite_img b.

Definition create_sidewalk_mask (pedestrian_streets low_traffic_streets
    : list geometry) (satellite_img : image) (b : Geo.bounds) (buffer_m : Q)
    : option (Np.ndarray bool) :=
  (* Combine pedestrian + low traffic streets *)
  let sidewalk_streets :=
    if ((0 <? List.length pedestrian_streets)
        || (0 <? List.length low_traffic_streets))%nat
    then pedestrian_streets ++ low_traffic_streets
    else [] in
  if (List.length sidewalk_streets =? 0)%nat then
    let '(img_width, img_height) := size satellite_img in
    Some (Np.full img_height img_width false)
  else
    (* Project to UTM *)
    let sidewalk_utm := to_crs sidewalk_streets "EPSG:32648" in
    (* Buffer *)
    let sidewalk_buffered :=
      List.map (fun g => buffer g buffer_m) sidewalk_utm in
    (* Project back *)
    let sidewalk_buffered := to_crs sidewalk_buffered "EPSG:4326" in
    (* Create mask *)
    '(mask, count) <- create_mask sidewalk_buffered satellite_img b ;;
    Some mask.

(** One of the four guarded steps: the mask of a tier is OR-ed in when the
    tier has a street. *)
Definition add_tier (tier_streets : list geometry) (satellite_img : image)
    (b : Geo.bounds) (buffer_m : Q) (comprehensive_mask : Np.ndarray bool)
    : option (Np.ndarray bool) :=
  if (0 <? List.length tier_streets)%nat then
    '(tier_mask, _) <-
      create_street_mask tier_streets satellite_img b buffer_m ;;
    Some (Np.or comprehensive_mask tier_mask)
  else Some comprehensive_mask.

Definition create_comprehensive_street_mask (pedestrian_streets
    low_traffic_streets medium_traffic_streets high_traffic_streets
    : list geometry) (satellite_img : image) (b : Geo.bounds)
    : option (Np.ndarray bool) :=
  let '(img_width, img_height) := size satellite_img in
  let comprehensive_mask := Np.full img_height img_width false in
  (* High-traffic streets: 25m buffer *)
  comprehensive_mask <-
    add_tier high_traffic_streets satellite_img b 25 comprehensive_mask ;;
  (* Medium-traffic streets: 15m buffer *)
  comprehensive_mask <-
    add_tier medium_traffic_streets satellite_img b 15 comprehensive_mask ;;
  (* Low-traffic streets: 10m buffer *)
  comprehensive_mask <-
    add_tier low_traffic_streets satellite_img b 10 comprehensive_mask ;;
  (* Pedestrian streets: 5m buffer *)
  comprehensive_mask <-
    add_tier pedestrian_streets satellite_img b 5 comprehensive_mask ;;
  Some comprehensive_mask.

End Rasterise.

(** The number of polygons one geometry makes [create_mask] draw: a
    polygon counts when its ring has at least 3 coordinates; points and
    unknown geometries are skipped. *)
Definition ring_drawn (poly : geometry) : Z :=
  match poly with
  | Polygon exterior => if (3 <=? Z.of_nat (List.length exterior))%Z then 1 else 0
  | _ => 0
  end.

Definition polygons_drawn (geom : geometry) : Z :=
  match geom with
  | Polygon _ => ring_drawn geom
  | MultiPolygon geoms => fold_right (fun p n => ring_drawn p + n)%Z 0%Z geoms
  | _ => 0%Z
  end.

Definition is_linestring (geom : geometry) : bool :=
  match geom with
  | LineString _ => true
  | _ => false
  end.

End Masks.

(** ** core/priority_calculator.py *)

Module Priority.
Import Np.
Local Open Scope R_scope.

(** config/settings.py *)
Definition SCORE_SIDEWALK : R := 35.
Definition SCORE_BUILDING : R := 25.
Definition SCORE_SUN : R := 20.
Definition SCORE_AMENITY : R := 10.
Definition PRIORITY_CRITICAL_MIN : R := 80.
Definition PRIORITY_HIGH_MIN : R := 60.
Definition PRIORITY_MEDIUM_MIN : R := 40.

(** Comparisons of numbers as booleans. *)
Definition Rleb (x y : R) : bool := if Rle_dec x y then true else false.
Definition Rltb (x y : R) : bool := if Rlt_dec x y then true else false.

(** [a <= c], [a < c], [a >= c], [a > c] for an array [a] and a scalar [c] *)
Definition le_ (a : ndarray R) (c : R) : ndarray bool := map (fun v => Rleb v c) a.
Definition lt_ (a : ndarray R) (c : R) : ndarray bool := map (fun v => Rltb v c) a.
Definition ge_ (a : ndarray R) (c : R) : ndarray bool := map (fun v => Rleb c v) a.
Definition gt_ (a : ndarray R) (c : R) : ndarray bool := map (fun v => Rltb c v) a.

(** [a + b] on float arrays, [a * c] by a scalar, and [a * m] by a boolean
    array, whose entries count as 1 and 0. *)
Definition add (a b : ndarray R) : ndarray R := zip_with Rplus a b.
Definition scale (a : ndarray R) (c : R) : ndarray R := map (fun v => v * c) a.
Definition mul_mask (a : ndarray R) (m : ndarray bool) : ndarray R :=
  zip_with (fun v (b : bool) => v * (if b then 1 else 0)) a m.

(** *** scipy.ndimage.distance_transform_edt

    For every entry, the Euclidean distance to the nearest zero ([false])
    entry of the input.  The calculator calls it only behind its
    [np.any] guard, so the input has a zero entry; the value on an input
    without one is not modelled (it is 0 here). *)

Definition sqdist (y x : Z) (q : Z * Z) : Z :=
  ((y - fst q) ^ 2 + (x - snd q) ^ 2)%Z.

Definition zero_pixels (a : ndarray bool) : list (Z * Z) :=
  filter (fun p => negb (get a (fst p) (snd p))) (indices a).

Definition min_sqdist (y x : Z) (targets : list (Z * Z)) : Z :=
  match targets with
  | [] => 0%Z
  | q :: rest => fold_left (fun m q' => Z.min m (sqdist y x q')) rest (sqdist y x q)
  end.

Definition distance_transform_edt (a : ndarray bool) : ndarray R :=
  let zeros := zero_pixels a in
  Array (height a) (width a) (fun y x => sqrt (IZR (min_sqdist y x zeros))).

(** *** Component 1: sidewalk proximity *)

Definition _calculate_sidewalk_priority (sidewalk_mask : ndarray bool)
    (max_points : R) : ndarray R :=
  if negb (any sidewalk_mask) then full_like sidewalk_mask 0
  else
    (* Calculate distance transform (in pixels) *)
    let distance_px := distance_transform_edt (invert sidewalk_mask) in
    (* Apply pixel-based scoring *)
    let score := full_like distance_px 0 in
    let score := assign_where score (le_ distance_px 20) 35 in
    let score := assign_where score
                   (and (gt_ distance_px 20) (le_ distance_px 50)) 20 in
    let score := assign_where score (gt_ distance_px 50) 5 in
    score.

(** *** Component 2: building cooling zones *)

Definition _calculate_building_priority (building_mask : ndarray bool)
    (max_points : R) : ndarray R :=
  if negb (any building_mask) then full_like building_mask 0
  else
    (* Calculate distance from buildings (in pixels) *)
    let distance_px := distance_transform_edt (invert building_mask) in
    (* Convert to meters using 0.6m per pixel *)
    let meters_per_pixel := 0.6 in
    let distance_m := scale distance_px meters_per_pixel in
    (* Apply distance-based scoring *)
    let score := full_like distance_m 0 in
    let score := assign_where score
                   (and (ge_ distance_m 5) (le_ distance_m 15)) 25 in
    let score := assign_where score
                   (and (gt_ distance_m 15) (le_ distance_m 30)) 15 in
    let score := assign_where score
                   (and (gt_ distance_m 0) (lt_ distance_m 5)) 10 in
    let score := assign_where score (gt_ distance_m 30) 5 in
    score.

(** *** Component 3: sun exposure *)

Definition _calculate_sun_priority (shadow_intensity : ndarray R)
    (max_points : R) : ndarray R :=
  let score := full_like shadow_intensity 0 in
  let score := assign_where score (lt_ shadow_intensity 0.3) 20 in
  let score := assign_where score
                 (and (ge_ shadow_intensity 0.3) (lt_ shadow_intensity 0.6)) 12 in
  let score := assign_where score (ge_ shadow_intensity 0.6) 5 in
  score.

(** *** Component 4: amenity density *)

(** Python slicing [a[start:stop]] on an axis of length [n]: a negative
    bound counts from the end, and both are clipped to the axis.  The
    result is the first selected index and the number of selected ones. *)
Definition slice_bound (n i : Z) : Z :=
  if (i <? 0)%Z then Z.max (i + n) 0 else Z.min i n.

Definition py_slice (n start stop : Z) : Z * Z :=
  let lo := slice_bound n start in
  let hi := slice_bound n stop in
  (lo, Z.max 0 (hi - lo)).

(** An axis of length [s] broadcasts to one of length [t] when they are
    equal or [s] is 1. *)
Definition broadcastable (s t : Z) : bool := ((s =? t) || (s =? 1))%Z.
Definition broadcast_index (s k : Z) : Z := if (s =? 1)%Z then 0%Z else k.

(** [target[ys:ye, xs:xe] += src[kys:kye, kxs:kxe]]; raises when the
    right-hand side does not broadcast to the shape of the left. *)
Definition iadd_slice (target : ndarray R) (ys ye xs xe : Z)
    (src : ndarray R) (kys kye kxs kxe : Z) : option (ndarray R) :=
  let '(ty, th) := py_slice (height target) ys ye in
  let '(tx, tw) := py_slice (width target) xs xe in
  let '(sy, sh) := py_slice (height src) kys kye in
  let '(sx, sw) := py_slice (width src) kxs kxe in
  if broadcastable sh th && broadcastable sw tw then
    Some (Array (height target) (width target) (fun y x =>
      if ((ty <=? y) && (y <? ty + th) && (tx <=? x) && (x <? tx + tw))%Z
      then get target y x
           + get src (sy + broadcast_index sh (y - ty))%Z
                     (sx + broadcast_index sw (x - tx))%Z
      else get target y x))
  else None.

(** The circular kernel with Gaussian-like falloff. *)
Definition make_kernel (radius_px : Z) : ndarray R :=
  let kernel_size := (radius_px * 2 + 1)%Z in
  let center := radius_px in
  Array kernel_size kernel_size (fun i j =>
    let dist := sqrt (IZR ((i - center) ^ 2 + (j - center) ^ 2)) in
    if Rle_dec dist (IZR radius_px)
    then exp (- (dist / IZR radius_px) ^ 2)
    else 0).

(** The body of the loop that applies the kernel around each amenity. *)
Definition add_kernel (kernel : ndarray R) (radius_px img_height img_width : Z)
    (density_map : ndarray R) (p : Z * Z) : option (ndarray R) :=
  let '(px_x, px_y) := p in
  (* Bounds for kernel application *)
  let y_start := Z.max 0 (px_y - radius_px) in
  let y_end := Z.min img_height (px_y + radius_px + 1) in
  let x_start := Z.max 0 (px_x - radius_px) in
  let x_end := Z.min img_width (px_x + radius_px + 1) in
  (* Kernel bounds (handle edge cases) *)
  let ky_start := (radius_px - (px_y - y_start))%Z in
  let ky_end := (radius_px + (y_end - px_y))%Z in
  let kx_start := (radius_px - (px_x - x_start))%Z in
  let kx_end := (radius_px + (x_end - px_x))%Z in
  (* Add kernel to density map *)
  iadd_slice density_map y_start y_end x_start x_end
             kernel ky_start ky_end kx_start kx_end.

(** The body of the loop that converts amenities to pixel coordinates. *)
Definition collect_pixel (b : Geo.bounds) (img_height img_width : Z)
    (amenity_pixels : list (Z * Z)) (point : Masks.geometry)
    : option (list (Z * Z)) :=
  match point with
  | Masks.Point x y =>
    p <- Geo.latlon_to_pixel y x (Geo.min_lat b) (Geo.max_lat b)
           (Geo.min_lon b) (Geo.max_lon b) img_height img_width ;;
    Some (amenity_pixels ++ [p])
  | _ => Some amenity_pixels
  end.

(** [a.max()]; raises on an array without entries. *)
Definition np_max (a : ndarray R) : option R :=
  match List.map (fun p => get a (fst p) (snd p)) (indices a) with
  | [] => None
  | v :: vs => Some (fold_left Rmax vs v)
  end.

Definition _calculate_amenity_priority (amenities_gdf : list Masks.geometry)
    (b : Geo.bounds) (image_size : Z * Z) (max_points : R)
    (sample_radius_m : Q) : option (ndarray R) :=
  let '(img_width, img_height) := image_size in
  if (List.length amenities_gdf =? 0)%nat then
    Some (full img_height img_width 0)
  else
    (* Create amenity density map *)
    let density_map := full img_height img_width 0 in
    (* Convert amenities to pixel coordinates *)
    amenity_pixels <-
      for_each amenities_gdf (collect_pixel b img_height img_width) [] ;;
    if (List.length amenity_pixels =? 0)%nat then Some density_map
    else
      (* Convert radius from meters to pixels *)
      let meters_per_pixel := (3 # 10)%Q in
      let radius_px := Geo.py_int (sample_radius_m / meters_per_pixel)%Q in
      (* Create circular kernel *)
      let kernel := make_kernel radius_px in
      (* Apply kernel around each amenity *)
      density_map <-
        for_each amenity_pixels
                 (add_kernel kernel radius_px img_height img_width)
                 density_map ;;
      (* Normalize to 0-1 *)
      density_max <- np_max density_map ;;
      let density_map :=
        if Rlt_dec 0 density_max
        then map (fun v => v / density_max) density_map
        else density_map in
      (* Scale to max_points *)
      let score := scale density_map max_points in
      Some score.

(** *** The combined score and its bands *)

Record priority_result := PriorityResult {
  enhanced_priority_score : ndarray R;
  critical_priority : ndarray bool;
  high_priority : ndarray bool;
  medium_priority : ndarray bool;
  low_priority : ndarray bool;
  sidewalk_component : ndarray R;
  building_component : ndarray R;
  sun_component : ndarray R;
  amenity_component : ndarray R
}.

Definition calculate (shadow_intensity : ndarray R)
    (sidewalk_mask building_mask street_mask vegetation_mask : ndarray bool)
    (amenities_gdf : list Masks.geometry) (b : Geo.bounds)
    : option priority_result :=
  let img_height := height shadow_intensity in
  let img_width := width shadow_intensity in
  (* Component 1: Sidewalk proximity (35 points) *)
  let sidewalk_score := _calculate_sidewalk_priority sidewalk_mask SCORE_SIDEWALK in
  (* Component 2: Building cooling zones (25 points) *)
  let building_score := _calculate_building_priority building_mask SCORE_BUILDING in
  (* Component 3: Sun exposure (20 points) *)
  let sun_score := _calculate_sun_priority shadow_intensity SCORE_SUN in
  (* Component 4: Amenity density (10 points) *)
  amenity_score <-
    _calculate_amenity_priority amenities_gdf b (img_width, img_height)
                                SCORE_AMENITY 50%Q ;;
  (* Component 5: Gap filling bonus (10 points - reserved for future) *)
  let gap_score := full img_height img_width 0 in
  (* Combine all components *)
  let enhanced_priority :=
    add (add (add (add sidewalk_score building_score) sun_score)
             amenity_score) gap_score in
  (* Valid area: Exclude buildings, streets, and existing vegetation *)
  let valid_area :=
    and (and (invert building_mask) (invert street_mask))
        (invert vegetation_mask) in
  let enhanced_priority := mul_mask enhanced_priority valid_area in
  (* Categorize into priority levels *)
  let critical_priority :=
    and (ge_ enhanced_priority PRIORITY_CRITICAL_MIN) valid_area in
  let high_priority :=
    and (and (ge_ enhanced_priority PRIORITY_HIGH_MIN)
             (lt_ enhanced_priority PRIORITY_CRITICAL_MIN)) valid_area in
  let medium_priority :=
    and (and (ge_ enhanced_priority PRIORITY_MEDIUM_MIN)
             (lt_ enhanced_priority PRIORITY_HIGH_MIN)) valid_area in
  let low_priority :=
    and (and (gt_ enhanced_priority 0)
             (lt_ enhanced_priority PRIORITY_MEDIUM_MIN)) valid_area in
  Some (PriorityResult enhanced_priority critical_priority high_priority
          medium_priority low_priority sidewalk_score building_score
          sun_score amenity_score).

(** [D] is the squared distance, in pixels, from [(y, x)] to the nearest
    [true] entry of [mask]. *)
Definition nearest_sqdist (mask : ndarray bool) (y x : Z) (D : Z) : Prop :=
  (exists q, in_shape mask (fst q) (snd q)
             /\ get mask (fst q) (snd q) = true /\ sqdist y x q = D)
  /\ (forall q, in_shape mask (fst q) (snd q) ->
                get mask (fst q) (snd q) = true -> (D <= sqdist y x q)%Z).

(** Every density map the loop builds keeps the image shape and has no
    negative entry. *)
Definition density_ok (img_height img_width : Z) (d : ndarray R) : Prop :=
  height d = img_height /\ width d = img_width
  /\ forall y x, 0 <= get d y x.

(** The inputs of one location share one pixel grid. *)
Definition one_grid (shadow_intensity : ndarray R)
    (sidewalk_mask building_mask street_mask vegetation_mask : ndarray bool)
    : Prop :=
  same_shape sidewalk_mask shadow_intensity
  /\ same_shape building_mask shadow_intensity
  /\ same_shape street_mask shadow_intensity
  /\ same_shape vegetation_mask shadow_intensity.

(** The value the kernel holds at Euclidean distance [dist] from its
    centre. *)
Definition falloff (radius_px : Z) (dist : R) : R :=
  if Rle_dec dist (IZR radius_px)
  then exp (- (dist / IZR radius_px) ^ 2)
  else 0.

(** The Euclidean distance, in pixels, between [(y, x)] and [q]. *)
Definition pixel_distance (y x : Z) (q : Z * Z) : R := sqrt (IZR (sqdist y x q)).


Definition is_point (g : Masks.geometry) : bool :=
  match g with
  | Masks.Point _ _ => true
  | _ => false
  end.

(** A pixel coordinate [p], on an axis of length [n], so far outside the
    image that the slice of the density map and the slice of the kernel
    get different lengths: to the left, the negative slice stop counts
    from the right end of the map; to the right, from the right end of
    the kernel. *)
Definition raising_offset (n radius_px p : Z) : Prop :=
  (- n < p + radius_px + 1 < 0)%Z
  \/ (0 <= n /\ n + radius_px < p <= n + 3 * radius_px - 1)%Z.

End Priority.

(** ** core/detector.py

    The detector reads the red and green channels of [np.array(img)] and
    the saturation and value channels of
    [cv2.cvtColor(img_array, cv2.COLOR_RGB2HSV)]; an image is given here by
    these four channel arrays, whose entries are of type uint8. *)

Module Detector.
Local Open Scope R_scope.

(** config/settings.py *)
Definition NDVI_THRESHOLD : R := 0.2.
Definition MIN_VEGETATION_BRIGHTNESS : Z := 60.
Definition SHADOW_BRIGHTNESS_THRESHOLD : Z := 95.
Definition SHADOW_DESATURATION_THRESHOLD : Z := 60.
Definition SHADOW_VERY_DARK_THRESHOLD : Z := 70.

Record image := Image {
  red : Np.ndarray Z;          (* img_array[:, :, 0] *)
  green : Np.ndarray Z;        (* img_array[:, :, 1] *)
  saturation : Np.ndarray Z;   (* hsv[:, :, 1] *)
  value : Np.ndarray Z         (* hsv[:, :, 2] *)
}.

(** [a < c] and [a > c] for an integer array [a] and a scalar [c] *)
Definition ilt_ (a : Np.ndarray Z) (c : Z) : Np.ndarray bool :=
  Np.map (fun v => (v <? c)%Z) a.
Definition igt_ (a : Np.ndarray Z) (c : Z) : Np.ndarray bool :=
  Np.map (fun v => (c <? v)%Z) a.

(** [a.astype(float)] *)
Definition astype_float (a : Np.ndarray Z) : Np.ndarray R := Np.map IZR a.

(** [np.clip(a, lo, hi)] *)
Definition clip (a : Np.ndarray R) (lo hi : R) : Np.ndarray R :=
  Np.map (fun v => Rmin (Rmax v lo) hi) a.

Definition _detect_vegetation (img : image) : Np.ndarray bool * Np.ndarray R :=
  (* Calculate NDVI *)
  let green := astype_float (green img) in
  let red := astype_float (red img) in
  let ndvi := Np.zip_with (fun g r => (g - r) / (g + r + 1e-8)) green red in
  (* Get brightness (Value channel from HSV) *)
  let v := value img in
  (* Vegetation must be green AND not extremely dark *)
  let vegetation_mask :=
    Np.and (Priority.gt_ ndvi NDVI_THRESHOLD)
           (igt_ v MIN_VEGETATION_BRIGHTNESS) in
  (vegetation_mask, ndvi).

Definition _detect_shadows_simple (img : image)
    (vegetation_mask : Np.ndarray bool) : Np.ndarray bool :=
  let v := value img in
  let s := saturation img in
  (* Shadows are dark and desaturated *)
  let dark := ilt_ v SHADOW_BRIGHTNESS_THRESHOLD in
  let desaturated := ilt_ s SHADOW_DESATURATION_THRESHOLD in
  (* Must be dark AND desaturated AND NOT vegetation *)
  Np.and (Np.and dark desaturated) (Np.invert vegetation_mask).

Definition _detect_shadows_very_dark (img : image)
    (vegetation_mask : Np.ndarray bool) : Np.ndarray bool :=
  let v := value img in
  (* Very dark areas *)
  let very_dark := ilt_ v SHADOW_VERY_DARK_THRESHOLD in
  (* Must NOT be vegetation *)
  Np.and very_dark (Np.invert vegetation_mask).

(** Steps 1 and 2 of [detect]: the vegetation mask, the NDVI and the
    combined shadow mask before the morphological cleanup. *)
Definition detect_before_cleanup (img : image)
    : Np.ndarray bool * Np.ndarray bool * Np.ndarray R :=
  (* Step 1: Detect vegetation *)
  let '(vegetation_mask, ndvi) := _detect_vegetation img in
  (* Step 2: Detect shadows (excluding vegetation) *)
  let shadow_very_dark := _detect_shadows_very_dark img vegetation_mask in
  let shadow_simple := _detect_shadows_simple img vegetation_mask in
  (* Combine shadow masks *)
  let shadow_combined := Np.or shadow_very_dark shadow_simple in
  (shadow_combined, vegetation_mask, ndvi).

Definition calculate_shadow_intensity (img : image) : Np.ndarray R :=
  let v := value img in
  (* Normalize brightness (0-255 -> 0.0-1.0) *)
  let v_norm := Np.map (fun x => x / 255) (astype_float v) in
  (* Shadow intensity = 1 - brightness (darker = higher intensity) *)
  let shadow_intensity := Np.map (fun x => 1 - x) v_norm in
  (* Clamp to 0-1 *)
  clip shadow_intensity 0 1.

(** Every entry is a uint8 value. *)
Definition uint8 (a : Np.ndarray Z) : Prop :=
  forall y x, (0 <= Np.get a y x <= 255)%Z.

End Detector.

(** ** core/visualizer.py: critical spots *)

Module Spots.
Local Open Scope Q_scope.

(** *** cv2.connectedComponentsWithStats, connectivity 8

    The components of the [true] entries under 8-neighbourhood, labelled
    1, 2, ... in the order a row-major scan meets them; for every label
    its pixels, its area and its centroid [(x, y)]. *)

Definition neighbours8 (p : Z * Z) : list (Z * Z) :=
  let '(y, x) := p in
  [ (y - 1, x - 1); (y - 1, x); (y - 1, x + 1);
    (y, x - 1);                 (y, x + 1);
    (y + 1, x - 1); (y + 1, x); (y + 1, x + 1) ]%Z.

Definition pixel_eqb (p q : Z * Z) : bool :=
  ((fst p =? fst q) && (snd p =? snd q))%Z.

Definition mem (p : Z * Z) (l : list (Z * Z)) : bool := existsb (pixel_eqb p) l.

Definition foreground (a : Np.ndarray bool) (p : Z * Z) : bool :=
  ((0 <=? fst p) && (fst p <? Np.height a)
   && (0 <=? snd p) && (snd p <? Np.width a))%Z
  && Np.get a (fst p) (snd p).

(** Flood fill from the pixels on [stack]; [comp] collects the component. *)
Fixpoint flood (fuel : nat) (a : Np.ndarray bool) (stack comp : list (Z * Z))
    : list (Z * Z) :=
  match fuel with
  | O => comp
  | S fuel' =>
    match stack with
    | [] => comp
    | p :: rest =>
      if foreground a p && negb (mem p comp)
      then flood fuel' a (neighbours8 p ++ rest) (p :: comp)
      else flood fuel' a rest comp
    end
  end.

(** Every pixel is pushed at most once as a seed and eight times as a
    neighbour, so this many steps empty the stack. *)
Definition flood_fuel (a : Np.ndarray bool) : nat :=
  S (9 * List.length (Np.indices a)).

Definition label_components (a : Np.ndarray bool) : list (list (Z * Z)) :=
  fold_left
    (fun comps p =>
       if foreground a p && negb (existsb (mem p) comps)
       then comps ++ [flood (flood_fuel a) a [p] []]
       else comps)
    (Np.indices a) [].

Definition sumQ (l : list Q) : Q := fold_right Qplus 0 l.

(** [np.mean] of a non-empty collection *)
Definition mean (l : list Q) : Q := sumQ l / inject_Z (Z.of_nat (List.length l)).

Record component := Component {
  label : Z;
  pixels : list (Z * Z);
  area : Z;            (* stats[i, cv2.CC_STAT_AREA] *)
  centroid : Q * Q     (* centroids[i] = (x, y) *)
}.

Definition component_of (i : Z) (pix : list (Z * Z)) : component :=
  Component i pix (Z.of_nat (List.length pix))
    (mean (List.map (fun p => inject_Z (snd p)) pix),
     mean (List.map (fun p => inject_Z (fst p)) pix)).

Fixpoint number_from (i : Z) (comps : list (list (Z * Z))) : list component :=
  match comps with
  | [] => []
  | pix :: rest => component_of i pix :: number_from (i + 1) rest
  end.

(** The components with labels [1 .. num_labels - 1]; label 0 is the
    background. *)
Definition connectedComponentsWithStats (a : Np.ndarray bool) : list component :=
  number_from 1 (label_components a).

(** *** _extract_critical_spots *)

(** Python [round(x, ndigits)] *)
Definition py_round_to (x : Q) (ndigits : positive) : Q :=
  inject_Z (Geo.py_round (x * inject_Z (Z.pow_pos 10 ndigits)))
  / inject_Z (Z.pow_pos 10 ndigits).

(** The spot dictionary; its two URL strings are left out. *)
Record spot := Spot {
  spot_id : Z;
  latitude : Q;
  longitude : Q;
  priority_score : Q;
  area_m2 : Q;
  area_pixels : Z
}.

(** [priority_score[labels == i]] *)
Definition cluster_scores (priority_score : Np.ndarray Q) (c : component) : list Q :=
  List.map (fun p => Np.get priority_score (fst p) (snd p)) (pixels c).

(** The body of the loop over the labels. *)
Definition process_cluster (priority_score : Np.ndarray Q) (b : Geo.bounds)
    (img_height img_width : Z) (critical_spots : list spot) (c : component)
    : option (list spot) :=
  let area_pixels := area c in
  (* Skip very small clusters *)
  if (area_pixels <? 20)%Z then Some critical_spots
  else
    (* Get centroid in pixel coordinates *)
    let centroid_x := fst (centroid c) in
    let centroid_y := snd (centroid c) in
    (* Convert pixel coordinates to lat/lon *)
    '(lat, lon) <- Geo.pixel_to_latlon centroid_x centroid_y
                     (Geo.min_lat b) (Geo.max_lat b)
                     (Geo.min_lon b) (Geo.max_lon b) img_height img_width ;;
    (* Get average priority score for this cluster *)
    let avg_score := mean (cluster_scores priority_score c) in
    (* Area in square meters (0.6m per pixel) *)
    let area_m2 := inject_Z area_pixels * ((6 # 10) * (6 # 10)) in
    let spot := Spot (label c)
                     (py_round_to lat 8) (py_round_to lon 8)
                     (py_round_to avg_score 1) (py_round_to area_m2 1)
                     area_pixels in
    Some (critical_spots ++ [spot]).

(** [critical_spots.sort(key=lambda x: x['priority_score'], reverse=True)]:
    a stable sort, largest key first. *)
Fixpoint insert_desc (s : spot) (l : list spot) : list spot :=
  match l with
  | [] => [s]
  | t :: rest =>
    if Qle_bool (priority_score t) (priority_score s)
    then s :: l
    else t :: insert_desc s rest
  end.

Definition sort_desc (l : list spot) : list spot := fold_right insert_desc [] l.

Definition _extract_critical_spots (critical_priority : Np.ndarray bool)
    (priority_score : Np.ndarray Q) (b : Geo.bounds)
    (img_height img_width : Z) : option (list spot) :=
  if negb (Np.any critical_priority) then Some []
  else
    (* Find connected components (individual critical clusters) *)
    let clusters := connectedComponentsWithStats critical_priority in
    (* Process each cluster (skip background label 0) *)
    critical_spots <-
      for_each clusters
               (process_cluster priority_score b img_height img_width) [] ;;
    (* Sort by priority score (highest first) *)
    Some (sort_desc critical_spots).

(** The spot the loop builds for a cluster, when the image sizes are not
    zero. *)
Definition spot_of (priority_score : Np.ndarray Q) (b : Geo.bounds)
    (img_height img_width : Z) (c : component) : spot :=
  let lon := Geo.min_lon b
             + fst (centroid c) / inject_Z img_width
               * (Geo.max_lon b - Geo.min_lon b) in
  let lat := Geo.max_lat b
             - snd (centroid c) / inject_Z img_height
               * (Geo.max_lat b - Geo.min_lat b) in
  Spot (label c) (py_round_to lat 8) (py_round_to lon 8)
       (py_round_to (mean (cluster_scores priority_score c)) 1)
       (py_round_to (inject_Z (area c) * ((6 # 10) * (6 # 10))) 1)
       (area c).

(** The clusters that are not skipped. *)
Definition large_enough (c : component) : bool := negb (area c <? 20)%Z.

(** Orders on spots: by reported score, largest first; by label. *)
Definition score_desc (s t : spot) : Prop := priority_score t <= priority_score s.
Definition same_score (k : Q) (s : spot) : bool := Qeq_bool (priority_score s) k.
Definition label_asc (s t : spot) : Prop := (spot_id s < spot_id t)%Z.

(** [s] may stand before [t] in the output: a higher reported score, or
    the same score and the smaller label. *)
Definition ranks_before (s t : spot) : Prop :=
  priority_score t < priority_score s
  \/ (priority_score t == priority_score s /\ (spot_id s < spot_id t)%Z).


End Spots.

(** ** core/visualizer.py: summary statistics *)

Module Summary.
Local Open Scope Z_scope.

(** [np.sum] of a boolean array: the number of [true] entries. *)
Definition np_sum (a : Np.ndarray bool) : Z :=
  Z.of_nat (List.length
              (filter (fun p => Np.get a (fst p) (snd p)) (Np.indices a))).

Record areas := Areas {
  total_pixels : Z;
  total_plantable : Z;
  critical_area : Z;
  high_area : Z;
  medium_area : Z;
  low_area : Z;
  vegetation_area : Z;
  building_area : Z;
  shadow_area : Z
}.

(** The counts [create_summary_statistics] starts from. *)
Definition count_areas (priority_results : Priority.priority_result)
    (vegetation_mask building_mask shadow_mask : Np.ndarray bool) : areas :=
  let enhanced_priority := Priority.enhanced_priority_score priority_results in
  let critical_priority := Priority.critical_priority priority_results in
  let high_priority := Priority.high_priority priority_results in
  let medium_priority := Priority.medium_priority priority_results in
  let low_priority := Priority.low_priority priority_results in
  let img_height := Np.height enhanced_priority in
  let img_width := Np.width enhanced_priority in
  let total_pixels := img_height * img_width in
  (* Calculate areas *)
  let plantable := Np.and (Np.invert building_mask) (Np.invert vegetation_mask) in
  let total_plantable := np_sum plantable in
  let critical_area := np_sum critical_priority in
  let high_area := np_sum high_priority in
  let medium_area := np_sum medium_priority in
  let low_area := np_sum low_priority in
  let vegetation_area := np_sum vegetation_mask in
  let building_area := np_sum building_mask in
  let shadow_area := np_sum shadow_mask in
  Areas total_pixels total_plantable critical_area high_area medium_area
        low_area vegetation_area building_area shadow_area.

(** ["percentage_of_plantable"]:
    [round(float(area)/float(total_plantable)*100, 1) if total_plantable > 0
     else 0.0] *)
Definition percentage_of_plantable (area total_plantable : Z) : Q :=
  if total_plantable >? 0
  then Spots.py_round_to
         (inject_Z area / inject_Z total_plantable * 100)%Q 1
  else 0%Q.

(** ["percentage"] of the land coverage:
    [round(float(area)/float(total_pixels)*100, 1)], not guarded. *)
Definition percentage (area total_pixels : Z) : option Q :=
  q <- Geo.py_div (inject_Z area) (inject_Z total_pixels) ;;
  Some (Spots.py_round_to (q * 100)%Q 1).

End Summary.

(* ================================================================== *)
(** * Part II: properties *)
(* ================================================================== *)

Unset Implicit Arguments.

(** ** Projection between geographic and pixel coordinates *)

Section GeoFacts.
Local Open Scope Q_scope.



Lemma py_div_nonzero (a b : Q) :
  ~ b == 0 -> Geo.py_div a b = Some (a / b).
Proof.
  intros Hb. unfold Geo.py_div.
  destruct (Qeq_bool b 0) eqn:E; [|reflexivity].
  apply Qeq_bool_iff in E. contradiction.
Qed.

Lemma latlon_to_pixel_defined (lat lon min_lat max_lat min_lon max_lon : Q)
    (img_height img_width : Z) :
  min_lon < max_lon -> min_lat < max_lat ->
  Geo.latlon_to_pixel lat lon min_lat max_lat min_lon max_lon
                      img_height img_width
  = Some (Geo.py_int ((lon - min_lon) / (max_lon - min_lon)
                      * inject_Z img_width),
          Geo.py_int ((max_lat - lat) / (max_lat - min_lat)
                      * inject_Z img_height)).
Proof.
  intros Hlon Hlat. unfold Geo.latlon_to_pixel.
  rewrite !py_div_nonzero; [reflexivity | lra | lra].
Qed.







End GeoFacts.

(** ** Street classification *)

Section StreetFacts.
Import Streets.

Lemma to_gdf_id (rows : list street) : _to_gdf rows = rows.
Proof. destruct rows; reflexivity. Qed.

(** The loop appends every row to exactly one list, keeping the order. *)
Lemma categorize_fold (l : list street) (acc : street_dict) :
  fold_left categorize l acc
  = StreetDict (pedestrian acc ++ filter goes_pedestrian l)
               (low_traffic acc ++ filter goes_low l)
               (medium_traffic acc ++ filter goes_medium l)
               (high_traffic acc ++ filter goes_high l).
Proof.
  revert acc. induction l as [|row l IH]; intros [p lo m h]; simpl.
  - now rewrite !app_nil_r.
  - rewrite IH. unfold categorize, goes_low, goes_medium, goes_high,
      goes_pedestrian.
    destruct (py_in (_get_highway_type row) PEDESTRIAN_PRIORITY_TYPES);
    destruct (py_in (_get_highway_type row) LOW_TRAFFIC_TYPES);
    destruct (py_in (_get_highway_type row) MEDIUM_TRAFFIC_TYPES);
    destruct (py_in (_get_highway_type row) HIGH_TRAFFIC_TYPES);
    simpl; rewrite <- ?app_assoc; reflexivity.
Qed.

Lemma filter_streets_by_type_filters (streets : list street) :
  filter_streets_by_type streets
  = StreetDict (filter goes_pedestrian streets) (filter goes_low streets)
               (filter goes_medium streets) (filter goes_high streets).
Proof.
  unfold filter_streets_by_type.
  destruct streets as [|row l]; [reflexivity|].
  cbn [List.length Nat.eqb].
  rewrite categorize_fold. cbn [pedestrian low_traffic medium_traffic
    high_traffic app]. now rewrite !to_gdf_id.
Qed.

Lemma four_way_split (l : list street) :
  Permutation (filter goes_pedestrian l ++ filter goes_low l
               ++ filter goes_medium l ++ filter goes_high l) l.
Proof.
  induction l as [|row l IH]; [constructor|].
  simpl. unfold goes_low at 1.
  destruct (goes_pedestrian row) eqn:Ep; simpl.
  - assert (goes_medium row = false) as ->
      by (unfold goes_medium; unfold goes_pedestrian in Ep; now rewrite Ep).
    assert (goes_high row = false) as ->
      by (unfold goes_high; unfold goes_pedestrian in Ep; now rewrite Ep).
    now constructor.
  - destruct (goes_medium row) eqn:Em; simpl.
    + assert (goes_high row = false) as ->.
      { unfold goes_high. unfold goes_medium in Em.
        apply andb_true_iff in Em. destruct Em as [Em1 Em2].
        rewrite Em1, Em2. reflexivity. }
      rewrite app_assoc. apply Permutation_sym, Permutation_cons_app.
      rewrite <- app_assoc. now apply Permutation_sym.
    + destruct (goes_high row) eqn:Eh; simpl.
      * rewrite !app_assoc. apply Permutation_sym, Permutation_cons_app.
        rewrite <- !app_assoc. now apply Permutation_sym.
      * apply Permutation_sym, Permutation_cons_app.
        now apply Permutation_sym.
Qed.

(** C6: classification is total and is a four-way partition of the input:
    the four lists together are a rearrangement of the input rows, their
    lengths sum to the input length, and a row whose (first) highway value
    is in none of the four sets is in the low-traffic list. *)
Theorem filter_streets_partition (streets : list street) :
  let r := filter_streets_by_type streets in
  Permutation (pedestrian r ++ low_traffic r ++ medium_traffic r
               ++ high_traffic r) streets
  /\ (List.length (pedestrian r) + List.length (low_traffic r)
      + List.length (medium_traffic r) + List.length (high_traffic r)
      = List.length streets)%nat
  /\ (forall row, In row streets -> unknown_type row ->
        In row (low_traffic r)
        /\ ~ In row (pedestrian r) /\ ~ In row (medium_traffic r)
        /\ ~ In row (high_traffic r)).
Proof.
  intros r. unfold r. rewrite filter_streets_by_type_filters.
  cbn [pedestrian low_traffic medium_traffic high_traffic].
  pose proof (four_way_split streets) as HP.
  split; [exact HP|]. split.
  - apply Permutation_length in HP. rewrite !length_app in HP. lia.
  - intros row Hin (Hp & Hl & Hm & Hh).
    rewrite !filter_In.
    unfold goes_low, goes_medium, goes_high, goes_pedestrian.
    rewrite Hp, Hl, Hm, Hh. simpl. intuition congruence.
Qed.

Lemma filter_streets_partition_witness :
  let streets :=
    [ Street 1 (Some (TagStr "footway"));
      Street 2 (Some (TagStr "bridleway"));
      Street 3 None;
      Street 4 (Some (TagList [TagStr "primary"; TagStr "secondary"])) ] in
  In (Street 2 (Some (TagStr "bridleway")))
     (low_traffic (filter_streets_by_type streets))
  /\ In (Street 3 None) (low_traffic (filter_streets_by_type streets)).
Proof.
  intros streets.
  destruct (filter_streets_partition streets) as (_ & _ & H).
  split; apply H.
  - right; left; reflexivity.
  - repeat split; reflexivity.
  - right; right; left; reflexivity.
  - repeat split; reflexivity.
Defined.

End StreetFacts.

(** ** Rasterisation of empty collections *)

Section MaskFacts.
Import Masks.

Variable draw_polygon : list (Z * Z) -> Z -> Np.ndarray Z -> Np.ndarray Z.
Variable buffer : geometry -> Q -> geometry.
Variable to_crs : list geometry -> string -> list geometry.

(** C9: on an empty collection both rasterisers return, without raising,
    an all-false mask whose shape is the (height, width) of the image,
    with a drawn count of 0. *)
Theorem empty_collection_mask (satellite_img : image) (b : Geo.bounds)
    (buffer_m : Q) :
  let all_false (r : option (Np.ndarray bool * Z)) :=
    exists mask, r = Some (mask, 0%Z)
      /\ Np.height mask = snd (size satellite_img)
      /\ Np.width mask = fst (size satellite_img)
      /\ forall y x, Np.get mask y x = false in
  all_false (create_mask draw_polygon buffer [] satellite_img b)
  /\ all_false (create_street_mask draw_polygon buffer to_crs []
                                   satellite_img b buffer_m).
Proof.
  intros all_false. unfold all_false, create_mask, create_street_mask.
  destruct satellite_img as [[w h]]. cbn.
  split; eexists; (split; [reflexivity|]); cbn; auto.
Qed.

End MaskFacts.

(** ** Arrays *)

Section ArrayFacts.

Lemma in_range (n k : Z) : In k (Np.range n) <-> (0 <= k < n)%Z.
Proof.
  unfold Np.range. rewrite in_map_iff. split.
  - intros (i & <- & Hi). apply in_seq in Hi. lia.
  - intros Hk. exists (Z.to_nat k). split; [lia|]. apply in_seq. lia.
Qed.

Lemma in_indices {A : Type} (a : Np.ndarray A) (p : Z * Z) :
  In p (Np.indices a) <-> Np.in_shape a (fst p) (snd p).
Proof.
  unfold Np.indices, Np.in_shape. rewrite in_flat_map. split.
  - intros (y & Hy & Hp). apply in_map_iff in Hp.
    destruct Hp as (x & <- & Hx). apply in_range in Hy, Hx. simpl. lia.
  - intros [Hy Hx]. exists (fst p). split; [now apply in_range|].
    apply in_map_iff. exists (snd p). split; [now destruct p|].
    now apply in_range.
Qed.

(** [np.any] finds a [true] entry exactly when the array has one. *)
Lemma any_true (a : Np.ndarray bool) :
  Np.any a = true <->
  exists y x, Np.in_shape a y x /\ Np.get a y x = true.
Proof.
  unfold Np.any. rewrite existsb_exists. split.
  - intros (p & Hp & Hv). exists (fst p), (snd p).
    split; [now apply in_indices | exact Hv].
  - intros (y & x & Hs & Hv). exists (y, x).
    split; [now apply in_indices | exact Hv].
Qed.

Lemma any_false (a : Np.ndarray bool) :
  Np.any a = false <->
  forall y x, Np.in_shape a y x -> Np.get a y x = false.
Proof.
  split.
  - intros Hf y x Hs. destruct (Np.get a y x) eqn:E; [|reflexivity].
    assert (Np.any a = true) by (apply any_true; eauto). congruence.
  - intros Hall. destruct (Np.any a) eqn:E; [|reflexivity].
    apply any_true in E. destruct E as (y & x & Hs & Hv).
    rewrite (Hall y x Hs) in Hv. discriminate.
Qed.

(** The error-passing loop keeps every invariant of its body. *)
Lemma for_each_invariant {A S : Type} (P : S -> Prop)
    (body : S -> A -> option S) (items : list A) :
  (forall s a s', P s -> body s a = Some s' -> P s') ->
  forall s s', P s -> for_each items body s = Some s' -> P s'.
Proof.
  intros Hbody. induction items as [|a items IH]; intros s s' Hs Hrun.
  - simpl in Hrun. now inversion Hrun; subst.
  - simpl in Hrun. unfold bind in Hrun.
    destruct (body s a) as [s1|] eqn:E; [|discriminate].
    eapply IH; [|exact Hrun]. eapply Hbody; eauto.
Qed.

End ArrayFacts.

(** ** The priority calculator *)

Section PriorityFacts.
Import Priority.
Local Open Scope R_scope.

Lemma Rleb_true (x y : R) : Rleb x y = true <-> x <= y.
Proof. unfold Rleb. destruct (Rle_dec x y); intuition discriminate. Qed.

Lemma Rleb_false (x y : R) : Rleb x y = false <-> y < x.
Proof.
  unfold Rleb. destruct (Rle_dec x y); split; intros; try discriminate;
    try reflexivity; lra.
Qed.

Lemma Rltb_true (x y : R) : Rltb x y = true <-> x < y.
Proof. unfold Rltb. destruct (Rlt_dec x y); intuition discriminate. Qed.

Lemma Rltb_false (x y : R) : Rltb x y = false <-> y <= x.
Proof.
  unfold Rltb. destruct (Rlt_dec x y); split; intros; try discriminate;
    try reflexivity; lra.
Qed.

(** Decide every comparison occurring in the goal. *)
Ltac decide_comparisons :=
  repeat match goal with
  | |- context [Rleb ?x ?y] =>
    let E := fresh "E" in
    destruct (Rleb x y) eqn:E;
    [apply Rleb_true in E | apply Rleb_false in E]
  | |- context [Rltb ?x ?y] =>
    let E := fresh "E" in
    destruct (Rltb x y) eqn:E;
    [apply Rltb_true in E | apply Rltb_false in E]
  end.

(** *** The distance transform *)

Lemma sqdist_nonneg (y x : Z) (q : Z * Z) : (0 <= sqdist y x q)%Z.
Proof. unfold sqdist. nia. Qed.

Lemma sqdist_zero (y x : Z) (q : Z * Z) :
  sqdist y x q = 0%Z <-> q = (y, x).
Proof.
  unfold sqdist. destruct q as [qy qx]. simpl. split.
  - intros H. assert (y - qy = 0)%Z by nia. assert (x - qx = 0)%Z by nia.
    f_equal; lia.
  - intros H. inversion H; subst. nia.
Qed.

Lemma fold_min_le (y x : Z) (l : list (Z * Z)) (m : Z) :
  (fold_left (fun m q' => Z.min m (sqdist y x q')) l m <= m)%Z
  /\ forall q, In q l ->
       (fold_left (fun m q' => Z.min m (sqdist y x q')) l m <= sqdist y x q)%Z.
Proof.
  revert m. induction l as [|a l IH]; intros m; simpl.
  - split; [lia | tauto].
  - destruct (IH (Z.min m (sqdist y x a))) as [H1 H2]. split; [lia|].
    intros q [<- | Hq]; [lia | now apply H2].
Qed.

Lemma fold_min_attained (y x : Z) (l : list (Z * Z)) (m : Z) :
  fold_left (fun m q' => Z.min m (sqdist y x q')) l m = m
  \/ exists q, In q l
       /\ fold_left (fun m q' => Z.min m (sqdist y x q')) l m = sqdist y x q.
Proof.
  revert m. induction l as [|a l IH]; intros m; simpl.
  - now left.
  - destruct (IH (Z.min m (sqdist y x a))) as [H | (q & Hq & H)].
    + rewrite H. destruct (Z.min_spec m (sqdist y x a)) as [[_ E] | [_ E]];
        rewrite E; [now left | right; exists a; auto].
    + right. exists q. auto.
Qed.

(** On a non-empty target list [min_sqdist] is the least squared distance
    to a target, and a target attains it. *)
Lemma min_sqdist_spec (y x : Z) (targets : list (Z * Z)) :
  targets <> [] ->
  (exists q, In q targets /\ min_sqdist y x targets = sqdist y x q)
  /\ (forall q, In q targets -> (min_sqdist y x targets <= sqdist y x q)%Z).
Proof.
  destruct targets as [|q0 rest]; [congruence|]. intros _. simpl. split.
  - destruct (fold_min_attained y x rest (sqdist y x q0)) as [H | (q & Hq & H)].
    + exists q0. auto.
    + exists q. auto.
  - destruct (fold_min_le y x rest (sqdist y x q0)) as [H1 H2].
    intros q [<- | Hq]; [exact H1 | now apply H2].
Qed.

(** The zero entries of [~mask] are the [true] entries of [mask]. *)
Lemma in_zero_pixels_invert (mask : Np.ndarray bool) (q : Z * Z) :
  In q (zero_pixels (Np.invert mask)) <->
  Np.in_shape mask (fst q) (snd q) /\ Np.get mask (fst q) (snd q) = true.
Proof.
  unfold zero_pixels. rewrite filter_In, in_indices. simpl.
  rewrite negb_involutive. reflexivity.
Qed.

(** Behind the [np.any] guard the transform of [~mask] is the distance
    to the nearest [true] entry of [mask]. *)
Lemma distance_to_mask (mask : Np.ndarray bool) (y x : Z) :
  Np.any mask = true ->
  exists D : Z,
    nearest_sqdist mask y x D
    /\ Np.get (distance_transform_edt (Np.invert mask)) y x = sqrt (IZR D).
Proof.
  intros Hany.
  exists (min_sqdist y x (zero_pixels (Np.invert mask))).
  split; [|reflexivity].
  assert (Hne : zero_pixels (Np.invert mask) <> []).
  { apply any_true in Hany. destruct Hany as (qy & qx & Hs & Hv).
    intros E.
    assert (Hin : In (qy, qx) (zero_pixels (Np.invert mask)))
      by (apply in_zero_pixels_invert; auto).
    rewrite E in Hin. exact Hin. }
  destruct (min_sqdist_spec y x _ Hne) as [(q & Hq & Hmin) Hle].
  split.
  - exists q. apply in_zero_pixels_invert in Hq. destruct Hq. auto.
  - intros q' Hs Hv. apply Hle. apply in_zero_pixels_invert. auto.
Qed.

Lemma nearest_sqdist_nonneg (mask : Np.ndarray bool) (y x D : Z) :
  nearest_sqdist mask y x D -> (0 <= D)%Z.
Proof. intros [(q & _ & _ & <-) _]. apply sqdist_nonneg. Qed.

(** The nearest distance is 0 exactly on the mask itself. *)
Lemma nearest_sqdist_zero (mask : Np.ndarray bool) (y x D : Z) :
  Np.in_shape mask y x -> nearest_sqdist mask y x D ->
  (D = 0%Z <-> Np.get mask y x = true).
Proof.
  intros Hs [(q & Hqs & Hqv & Hq) Hle]. split.
  - intros ->. apply sqdist_zero in Hq. subst q. exact Hqv.
  - intros Hv. pose proof (Hle (y, x) Hs Hv) as H.
    assert (sqdist y x (y, x) = 0%Z) by (now apply sqdist_zero).
    pose proof (sqdist_nonneg y x q). lia.
Qed.

Lemma sqrt_IZR_zero (D : Z) : (0 <= D)%Z -> (sqrt (IZR D) = 0 <-> D = 0%Z).
Proof.
  intros HD. split.
  - intros H. apply sqrt_eq_0 in H; [|now apply IZR_le].
    now apply eq_IZR.
  - intros ->. apply sqrt_0.
Qed.

(** *** Components that see an empty mask *)

(** C10: a mask without a [true] pixel makes the sidewalk-proximity and
    the building-cooling component zero at every pixel, with the shape of
    the mask; no pixel gets the far-distance value 5. *)
Theorem empty_mask_components_zero (mask : Np.ndarray bool) :
  (forall y x, Np.in_shape mask y x -> Np.get mask y x = false) ->
  let sidewalk := _calculate_sidewalk_priority mask SCORE_SIDEWALK in
  let building := _calculate_building_priority mask SCORE_BUILDING in
  Np.same_shape sidewalk mask /\ Np.same_shape building mask
  /\ forall y x, Np.get sidewalk y x = 0 /\ Np.get building y x = 0
                 /\ Np.get sidewalk y x <> 5 /\ Np.get building y x <> 5.
Proof.
  intros Hempty. apply any_false in Hempty.
  unfold _calculate_sidewalk_priority, _calculate_building_priority.
  rewrite Hempty. cbn. repeat split; lra.
Qed.

Lemma empty_mask_components_zero_witness :
  let mask := Np.full 2 3 false in
  Np.get (_calculate_sidewalk_priority mask SCORE_SIDEWALK) 1 2 = 0
  /\ Np.get (_calculate_building_priority mask SCORE_BUILDING) 1 2 = 0.
Proof.
  intros mask.
  destruct (empty_mask_components_zero mask) as (_ & _ & H).
  - intros; reflexivity.
  - destruct (H 1 2)%Z as (H1 & H2 & _). split; assumption.
Defined.

(** *** Building cooling zones *)

(** C5: for a non-empty building mask the component at a pixel is a
    function of the distance [d], in meters at 0.6 m per pixel, to the
    nearest building pixel: 25 for [5 <= d <= 15], 15 for [15 < d <= 30],
    10 for [0 < d < 5], 5 for [30 < d], and 0 for [d = 0], which is the
    case exactly on the building pixels. *)
Theorem building_cooling_tiers (building_mask : Np.ndarray bool) (y x : Z) :
  Np.any building_mask = true ->
  Np.in_shape building_mask y x ->
  exists D : Z,
    nearest_sqdist building_mask y x D /\
    let distance_m := sqrt (IZR D) * 0.6 in
    let score :=
      Np.get (_calculate_building_priority building_mask SCORE_BUILDING) y x in
    (5 <= distance_m <= 15 -> score = 25)
    /\ (15 < distance_m <= 30 -> score = 15)
    /\ (0 < distance_m < 5 -> score = 10)
    /\ (30 < distance_m -> score = 5)
    /\ (distance_m = 0 -> score = 0)
    /\ (distance_m = 0 <-> Np.get building_mask y x = true).
Proof.
  intros Hany Hs.
  destruct (distance_to_mask building_mask y x Hany) as (D & Hnear & Hd).
  exists D. split; [exact Hnear|].
  pose proof (nearest_sqdist_nonneg _ _ _ _ Hnear) as HD.
  unfold _calculate_building_priority. rewrite Hany.
  cbn [negb Np.get Np.assign_where Np.and Np.zip_with Np.map Np.full_like
       ge_ le_ gt_ lt_ scale].
  rewrite Hd. set (d := sqrt (IZR D)).
  assert (Hpos : 0 <= d) by apply sqrt_pos.
  repeat split.
  - intros [H1 H2]. decide_comparisons; cbn; lra.
  - intros [H1 H2]. decide_comparisons; cbn; lra.
  - intros [H1 H2]. decide_comparisons; cbn; lra.
  - intros H1. decide_comparisons; cbn; lra.
  - intros H1. decide_comparisons; cbn; lra.
  - intros H. assert (Hd0 : d = 0) by lra.
    apply (sqrt_IZR_zero _ HD) in Hd0.
    now apply (nearest_sqdist_zero _ _ _ _ Hs Hnear).
  - intros Hv. apply (nearest_sqdist_zero _ _ _ _ Hs Hnear) in Hv.
    apply (sqrt_IZR_zero _ HD) in Hv. fold d in Hv. lra.
Qed.

Lemma building_cooling_tiers_witness :
  let building_mask := Np.Array 1 60 (fun y x => (y =? 0)%Z && (x =? 0)%Z) in
  exists D : Z,
    nearest_sqdist building_mask 0 10 D /\
    let distance_m := sqrt (IZR D) * 0.6 in
    let score :=
      Np.get (_calculate_building_priority building_mask SCORE_BUILDING) 0 10 in
    (5 <= distance_m <= 15 -> score = 25)
    /\ (15 < distance_m <= 30 -> score = 15)
    /\ (0 < distance_m < 5 -> score = 10)
    /\ (30 < distance_m -> score = 5)
    /\ (distance_m = 0 -> score = 0)
    /\ (distance_m = 0 <-> Np.get building_mask 0 10 = true).
Proof.
  intros building_mask.
  apply (building_cooling_tiers building_mask 0 10).
  - reflexivity.
  - unfold Np.in_shape; simpl; lia.
Defined.

(** *** Ranges of the components *)

Lemma sidewalk_range (mask : Np.ndarray bool) (max_points : R) (y x : Z) :
  0 <= Np.get (_calculate_sidewalk_priority mask max_points) y x <= 35.
Proof.
  unfold _calculate_sidewalk_priority.
  destruct (Np.any mask); cbn; [|lra].
  decide_comparisons; cbn; lra.
Qed.

Lemma building_range (mask : Np.ndarray bool) (max_points : R) (y x : Z) :
  0 <= Np.get (_calculate_building_priority mask max_points) y x <= 25.
Proof.
  unfold _calculate_building_priority.
  destruct (Np.any mask); cbn; [|lra].
  decide_comparisons; cbn; lra.
Qed.

Lemma sun_range (shadow_intensity : Np.ndarray R) (max_points : R) (y x : Z) :
  0 <= Np.get (_calculate_sun_priority shadow_intensity max_points) y x <= 20.
Proof.
  unfold _calculate_sun_priority. cbn.
  decide_comparisons; cbn; lra.
Qed.

(** *** The amenity density field *)

Lemma kernel_range (radius_px i j : Z) :
  0 <= Np.get (make_kernel radius_px) i j <= 1.
Proof.
  unfold make_kernel. cbn [Np.get].
  destruct (Rle_dec _ _); [|lra].
  set (t := sqrt (IZR ((i - radius_px) ^ 2 + (j - radius_px) ^ 2))
            / IZR radius_px).
  split; [left; apply exp_pos|].
  rewrite <- exp_0.
  assert (Ht : - t ^ 2 <= 0) by (pose proof (pow2_ge_0 t); lra).
  destruct Ht as [Ht | Ht]; [left; now apply exp_increasing | rewrite Ht; lra].
Qed.

Lemma iadd_slice_shape (target src target' : Np.ndarray R)
    (ys ye xs xe kys kye kxs kxe : Z) :
  iadd_slice target ys ye xs xe src kys kye kxs kxe = Some target' ->
  Np.height target' = Np.height target /\ Np.width target' = Np.width target.
Proof.
  unfold iadd_slice.
  destruct (py_slice (Np.height target) ys ye), (py_slice (Np.width target) xs xe),
    (py_slice (Np.height src) kys kye), (py_slice (Np.width src) kxs kxe).
  destruct (_ && _); [|discriminate].
  intros H. inversion H; subst. auto.
Qed.

Lemma iadd_slice_nonneg (target src target' : Np.ndarray R)
    (ys ye xs xe kys kye kxs kxe : Z) :
  (forall y x, 0 <= Np.get target y x) ->
  (forall i j, 0 <= Np.get src i j) ->
  iadd_slice target ys ye xs xe src kys kye kxs kxe = Some target' ->
  forall y x, 0 <= Np.get target' y x.
Proof.
  intros Ht Hsrc. unfold iadd_slice.
  destruct (py_slice (Np.height target) ys ye), (py_slice (Np.width target) xs xe),
    (py_slice (Np.height src) kys kye) as [sy sh],
    (py_slice (Np.width src) kxs kxe) as [sx sw].
  destruct (_ && _); [|discriminate].
  intros H y x. inversion H; subst. cbn.
  destruct (_ && _)%bool; [|apply Ht].
  pose proof (Ht y x).
  pose proof (Hsrc (sy + broadcast_index sh (y - z))%Z
                   (sx + broadcast_index sw (x - z1))%Z).
  lra.
Qed.

Lemma add_kernel_ok (radius_px img_height img_width : Z)
    (d d' : Np.ndarray R) (p : Z * Z) :
  density_ok img_height img_width d ->
  add_kernel (make_kernel radius_px) radius_px img_height img_width d p
  = Some d' ->
  density_ok img_height img_width d'.
Proof.
  intros (Hh & Hw & Hpos) Hadd. destruct p as [px_x px_y].
  unfold add_kernel in Hadd.
  destruct (iadd_slice_shape _ _ _ _ _ _ _ _ _ _ _ Hadd) as [Hh' Hw'].
  repeat split; [congruence | congruence |].
  eapply iadd_slice_nonneg; [exact Hpos | | exact Hadd].
  intros i j. apply kernel_range.
Qed.

Lemma fold_Rmax_ge (l : list R) (v : R) :
  v <= fold_left Rmax l v
  /\ forall u, In u l -> u <= fold_left Rmax l v.
Proof.
  revert v. induction l as [|a l IH]; intros v; simpl.
  - split; [lra | tauto].
  - destruct (IH (Rmax v a)) as [H1 H2].
    pose proof (Rmax_l v a). pose proof (Rmax_r v a).
    split; [lra|]. intros u [<- | Hu]; [lra | now apply H2].
Qed.

Lemma fold_Rmax_in (l : list R) (v : R) :
  fold_left Rmax l v = v \/ In (fold_left Rmax l v) l.
Proof.
  revert v. induction l as [|a l IH]; intros v; simpl.
  - now left.
  - destruct (IH (Rmax v a)) as [H | H].
    + rewrite H. unfold Rmax. destruct (Rle_dec v a); auto.
    + auto.
Qed.

Lemma np_max_ge (a : Np.ndarray R) (m : R) (y x : Z) :
  np_max a = Some m -> Np.in_shape a y x -> Np.get a y x <= m.
Proof.
  unfold np_max. intros Hm Hs.
  assert (Hin : In (Np.get a y x)
                   (List.map (fun p => Np.get a (fst p) (snd p)) (Np.indices a))).
  { apply in_map_iff. exists (y, x). split; [reflexivity|].
    now apply in_indices. }
  destruct (List.map _ (Np.indices a)) as [|v vs]; [discriminate|].
  inversion Hm; subst. destruct (fold_Rmax_ge vs v) as [H1 H2].
  destruct Hin as [<- | Hin]; [exact H1 | now apply H2].
Qed.

Lemma np_max_attained (a : Np.ndarray R) (m : R) :
  np_max a = Some m ->
  exists y x, Np.in_shape a y x /\ Np.get a y x = m.
Proof.
  unfold np_max. intros Hm.
  destruct (List.map _ (Np.indices a)) as [|v vs] eqn:E; [discriminate|].
  inversion Hm; subst.
  assert (Hin : In (fold_left Rmax vs v)
                   (List.map (fun p => Np.get a (fst p) (snd p)) (Np.indices a))).
  { rewrite E. destruct (fold_Rmax_in vs v) as [H | H];
      [rewrite H; now left | now right]. }
  apply in_map_iff in Hin. destruct Hin as (p & Hp & Hin).
  exists (fst p), (snd p). split; [now apply in_indices | exact Hp].
Qed.

Lemma np_max_defined (a : Np.ndarray R) (y x : Z) :
  Np.in_shape a y x -> exists m, np_max a = Some m.
Proof.
  intros Hs. unfold np_max.
  assert (Hin : In (y, x) (Np.indices a)) by (now apply in_indices).
  destruct (Np.indices a) as [|p ps]; [destruct Hin|].
  simpl. eauto.
Qed.

(** The amenity component has the image shape and lies in [0, max_points]. *)
Lemma amenity_range (amenities_gdf : list Masks.geometry) (b : Geo.bounds)
    (img_width img_height : Z) (max_points : R) (sample_radius_m : Q)
    (score : Np.ndarray R) :
  0 <= max_points ->
  _calculate_amenity_priority amenities_gdf b (img_width, img_height)
                              max_points sample_radius_m = Some score ->
  Np.height score = img_height /\ Np.width score = img_width
  /\ forall y x, Np.in_shape score y x ->
       0 <= Np.get score y x <= max_points.
Proof.
  intros Hmp. unfold _calculate_amenity_priority.
  destruct (List.length amenities_gdf =? 0)%nat.
  { intros H; inversion H; subst. cbn. repeat split; lra. }
  unfold bind at 1.
  destruct (for_each amenities_gdf _ []) as [amenity_pixels|]; [|discriminate].
  destruct (List.length amenity_pixels =? 0)%nat.
  { intros H; inversion H; subst. cbn. repeat split; lra. }
  unfold bind at 1.
  destruct (for_each amenity_pixels _ _) as [density_map|] eqn:Eloop;
    [|discriminate].
  assert (Hok : density_ok img_height img_width density_map).
  { eapply for_each_invariant; [| |exact Eloop].
    - intros s a s' Hs Hbody. eapply add_kernel_ok; eauto.
    - repeat split; cbn; intros; lra. }
  destruct Hok as (Hh & Hw & Hpos).
  unfold bind.
  destruct (np_max density_map) as [density_max|] eqn:Emax; [|discriminate].
  intros H; inversion H; subst; clear H.
  destruct (Rlt_dec 0 density_max) as [Hlt | Hle]; cbn.
  - repeat split; try reflexivity.
    + apply Rmult_le_pos; [|exact Hmp].
      apply Rmult_le_pos; [apply Hpos | left; now apply Rinv_0_lt_compat].
    + destruct H as [Hy Hx]. cbn in Hy, Hx.
      assert (Hge : Np.get density_map y x <= density_max)
        by (apply np_max_ge; [exact Emax | split; assumption]).
      assert (Np.get density_map y x / density_max <= 1).
      { apply Rmult_le_reg_r with density_max; [exact Hlt|].
        unfold Rdiv. rewrite Rmult_assoc, Rinv_l; lra. }
      pose proof (Hpos y x).
      assert (0 <= Np.get density_map y x / density_max).
      { apply Rmult_le_pos; [lra | left; now apply Rinv_0_lt_compat]. }
      nra.
  - repeat split; try reflexivity.
    + apply Rmult_le_pos; [apply Hpos | exact Hmp].
    + assert (Hge : Np.get density_map y x <= density_max)
        by (apply np_max_ge; [exact Emax | exact H]).
      pose proof (Hpos y x).
      assert (Np.get density_map y x = 0) as -> by lra. lra.
Qed.

(** *** The combined score *)

(** The score of a pixel is the sum of the four components on the valid
    area and 0 elsewhere. *)
Lemma calculate_score (shadow_intensity : Np.ndarray R)
    (sidewalk_mask building_mask street_mask vegetation_mask : Np.ndarray bool)
    (amenities_gdf : list Masks.geometry) (b : Geo.bounds)
    (r : priority_result) :
  calculate shadow_intensity sidewalk_mask building_mask street_mask
            vegetation_mask amenities_gdf b = Some r ->
  exists amenity_score,
    _calculate_amenity_priority amenities_gdf b
      (Np.width shadow_intensity, Np.height shadow_intensity)
      SCORE_AMENITY 50%Q = Some amenity_score
    /\ forall y x,
      let valid := negb (Np.get building_mask y x)
                   && negb (Np.get street_mask y x)
                   && negb (Np.get vegetation_mask y x) in
      let score := Np.get (enhanced_priority_score r) y x in
      score
      = (Np.get (_calculate_sidewalk_priority sidewalk_mask SCORE_SIDEWALK) y x
         + Np.get (_calculate_building_priority building_mask SCORE_BUILDING) y x
         + Np.get (_calculate_sun_priority shadow_intensity SCORE_SUN) y x
         + Np.get amenity_score y x + 0) * (if valid then 1 else 0)
      /\ Np.get (critical_priority r) y x
         = Rleb PRIORITY_CRITICAL_MIN score && valid
      /\ Np.get (high_priority r) y x
         = Rleb PRIORITY_HIGH_MIN score && Rltb score PRIORITY_CRITICAL_MIN
           && valid
      /\ Np.get (medium_priority r) y x
         = Rleb PRIORITY_MEDIUM_MIN score && Rltb score PRIORITY_HIGH_MIN
           && valid
      /\ Np.get (low_priority r) y x
         = Rltb 0 score && Rltb score PRIORITY_MEDIUM_MIN && valid.
Proof.
  unfold calculate.
  destruct (_calculate_amenity_priority _ _ _ _ _) as [amenity_score|];
    cbn [bind]; [|discriminate].
  intros H; inversion H; subst; clear H.
  exists amenity_score. split; [reflexivity|].
  intros y x. repeat split.
Qed.

(** C2: every pixel of the returned score grid lies in [0, 100], for
    every shadow-intensity field, masks on the same grid, amenity list and
    bounds. *)
Theorem priority_score_range (shadow_intensity : Np.ndarray R)
    (sidewalk_mask building_mask street_mask vegetation_mask : Np.ndarray bool)
    (amenities_gdf : list Masks.geometry) (b : Geo.bounds)
    (r : priority_result) (y x : Z) :
  one_grid shadow_intensity sidewalk_mask building_mask street_mask
           vegetation_mask ->
  calculate shadow_intensity sidewalk_mask building_mask street_mask
            vegetation_mask amenities_gdf b = Some r ->
  Np.in_shape shadow_intensity y x ->
  0 <= Np.get (enhanced_priority_score r) y x <= 100.
Proof.
  intros _ Hcalc Hs.
  destruct (calculate_score _ _ _ _ _ _ _ _ Hcalc) as (am & Ham & Hpix).
  destruct (Hpix y x) as (-> & _).
  pose proof (sidewalk_range sidewalk_mask SCORE_SIDEWALK y x).
  pose proof (building_range building_mask SCORE_BUILDING y x).
  pose proof (sun_range shadow_intensity SCORE_SUN y x).
  assert (Hmp : 0 <= SCORE_AMENITY) by (unfold SCORE_AMENITY; lra).
  destruct (amenity_range _ _ _ _ _ _ _ Hmp Ham) as (Hh & Hw & Ha).
  unfold SCORE_AMENITY in Ha.
  assert (0 <= Np.get am y x <= 10).
  { apply Ha. unfold Np.in_shape in *. rewrite Hh, Hw. exact Hs. }
  destruct (negb _ && negb _ && negb _)%bool; lra.
Qed.

(** C1: on every pixel the four bands are the score ranges [>= 80],
    [60, 80), [40, 60) and (0, 40) cut to the valid area; they are pairwise
    disjoint, and a pixel is in one of them exactly when its score is
    positive and it is valid (no building, no street, no vegetation). *)
Theorem priority_bands_partition (shadow_intensity : Np.ndarray R)
    (sidewalk_mask building_mask street_mask vegetation_mask : Np.ndarray bool)
    (amenities_gdf : list Masks.geometry) (b : Geo.bounds)
    (r : priority_result) (y x : Z) :
  one_grid shadow_intensity sidewalk_mask building_mask street_mask
           vegetation_mask ->
  calculate shadow_intensity sidewalk_mask building_mask street_mask
            vegetation_mask amenities_gdf b = Some r ->
  Np.in_shape shadow_intensity y x ->
  let valid := negb (Np.get building_mask y x)
               && negb (Np.get street_mask y x)
               && negb (Np.get vegetation_mask y x) in
  let score := Np.get (enhanced_priority_score r) y x in
  let critical := Np.get (critical_priority r) y x in
  let high := Np.get (high_priority r) y x in
  let medium := Np.get (medium_priority r) y x in
  let low := Np.get (low_priority r) y x in
  (critical = true <-> 80 <= score /\ valid = true)
  /\ (high = true <-> 60 <= score < 80 /\ valid = true)
  /\ (medium = true <-> 40 <= score < 60 /\ valid = true)
  /\ (low = true <-> 0 < score < 40 /\ valid = true)
  /\ (critical && high = false /\ critical && medium = false
      /\ critical && low = false /\ high && medium = false
      /\ high && low = false /\ medium && low = false)
  /\ (critical || high || medium || low = true
      <-> 0 < score /\ valid = true).
Proof.
  intros _ Hcalc _ valid score critical high medium low.
  destruct (calculate_score _ _ _ _ _ _ _ _ Hcalc) as (am & _ & Hpix).
  destruct (Hpix y x) as (_ & Hc & Hh & Hm & Hl).
  fold valid score in Hc, Hh, Hm, Hl.
  unfold critical, high, medium, low. rewrite Hc, Hh, Hm, Hl.
  unfold PRIORITY_CRITICAL_MIN, PRIORITY_HIGH_MIN, PRIORITY_MEDIUM_MIN.
  clearbody valid score. clear.
  destruct valid; decide_comparisons; cbn;
    repeat split; intros; try reflexivity; try discriminate; try lra;
    repeat match goal with H : _ /\ _ |- _ => destruct H end;
    try discriminate; try lra.
Qed.

(** *** One amenity *)

Lemma kernel_falloff (radius_px i j : Z) :
  Np.get (make_kernel radius_px) i j
  = falloff radius_px (pixel_distance i j (radius_px, radius_px)).
Proof. reflexivity. Qed.

Lemma falloff_range (radius_px : Z) (dist : R) :
  0 <= falloff radius_px dist <= 1.
Proof.
  unfold falloff. destruct (Rle_dec _ _); [|lra].
  set (t := dist / IZR radius_px).
  split; [left; apply exp_pos|].
  rewrite <- exp_0.
  assert (Ht : - t ^ 2 <= 0) by (pose proof (pow2_ge_0 t); lra).
  destruct Ht as [Ht | Ht]; [left; now apply exp_increasing | rewrite Ht; lra].
Qed.

Lemma falloff_centre (radius_px : Z) :
  (0 <= radius_px)%Z -> falloff radius_px 0 = 1.
Proof.
  intros Hr. unfold falloff.
  destruct (Rle_dec 0 (IZR radius_px)) as [_ | Hn].
  - replace (- (0 / IZR radius_px) ^ 2) with 0
      by (unfold Rdiv; rewrite Rmult_0_l; lra).
    apply exp_0.
  - exfalso. apply Hn. now apply IZR_le.
Qed.

Lemma falloff_beyond (radius_px : Z) (dist : R) :
  IZR radius_px < dist -> falloff radius_px dist = 0.
Proof.
  intros H. unfold falloff. destruct (Rle_dec _ _); [lra | reflexivity].
Qed.

Lemma falloff_below_one (radius_px : Z) (dist : R) :
  (0 < radius_px)%Z -> 0 < dist -> falloff radius_px dist < 1.
Proof.
  intros Hr Hd. unfold falloff. destruct (Rle_dec _ _); [|lra].
  rewrite <- exp_0. apply exp_increasing.
  assert (0 < IZR radius_px) by (now apply IZR_lt).
  assert (0 < dist / IZR radius_px) by (now apply Rdiv_lt_0_compat).
  nra.
Qed.

Lemma falloff_antitone (radius_px : Z) (d1 d2 : R) :
  (0 < radius_px)%Z -> 0 <= d1 <= d2 ->
  falloff radius_px d2 <= falloff radius_px d1.
Proof.
  intros Hr [H1 H2].
  assert (Hpos : 0 < IZR radius_px) by (now apply IZR_lt).
  unfold falloff.
  destruct (Rle_dec d2 _) as [L2 | L2].
  - destruct (Rle_dec d1 _) as [L1 | L1]; [|lra].
    assert (Ht : - (d2 / IZR radius_px) ^ 2 <= - (d1 / IZR radius_px) ^ 2).
    { assert (0 <= d1 / IZR radius_px)
        by (apply Rmult_le_pos; [lra | left; now apply Rinv_0_lt_compat]).
      assert (d1 / IZR radius_px <= d2 / IZR radius_px)
        by (apply Rmult_le_compat_r; [left; now apply Rinv_0_lt_compat | lra]).
      nra. }
    destruct Ht as [Ht | Ht]; [left; now apply exp_increasing | rewrite Ht; lra].
  - destruct (Rle_dec d1 _); [left; apply exp_pos | lra].
Qed.

(** A slice with bounds inside the axis selects just those indices. *)
Lemma py_slice_regular (n start stop : Z) :
  (0 <= start <= stop)%Z -> (stop <= n)%Z ->
  py_slice n start stop = (start, (stop - start)%Z).
Proof.
  intros H1 H2. unfold py_slice, slice_bound.
  destruct (Z.ltb_spec start 0); [lia|].
  destruct (Z.ltb_spec stop 0); [lia|].
  f_equal; lia.
Qed.

Lemma broadcastable_same (s t : Z) : s = t -> broadcastable s t = true.
Proof. intros ->. unfold broadcastable. now rewrite Z.eqb_refl. Qed.

Lemma square_beyond (r a : Z) :
  (0 <= r)%Z -> (r < a \/ r < - a)%Z -> (r * r < a * a)%Z.
Proof.
  intros Hr [H | H].
  - apply Z.mul_lt_mono_nonneg; lia.
  - replace (a * a)%Z with (- a * - a)%Z by ring.
    apply Z.mul_lt_mono_nonneg; lia.
Qed.

(** One kernel added to an empty map, around a pixel inside the image:
    every entry holds the kernel value for its distance to that pixel. *)
Lemma single_kernel_density (radius_px img_height img_width px_x px_y : Z) :
  (0 <= radius_px)%Z ->
  (0 <= px_x < img_width)%Z -> (0 <= px_y < img_height)%Z ->
  exists d,
    add_kernel (make_kernel radius_px) radius_px img_height img_width
               (Np.full img_height img_width 0) (px_x, px_y) = Some d
    /\ Np.height d = img_height /\ Np.width d = img_width
    /\ forall y x, Np.in_shape d y x ->
         Np.get d y x = falloff radius_px (pixel_distance y x (px_y, px_x)).
Proof.
  intros Hr Hx Hy. unfold add_kernel, iadd_slice.
  cbn [Np.height Np.width Np.full make_kernel].
  rewrite (py_slice_regular img_height) by lia.
  rewrite (py_slice_regular img_width) by lia.
  rewrite !(py_slice_regular (radius_px * 2 + 1)) by lia.
  rewrite !broadcastable_same by lia.
  cbn [andb]. eexists. split; [reflexivity|].
  cbn [Np.height Np.width Np.get]. split; [reflexivity|]. split; [reflexivity|].
  intros y x [Hys Hxs]. cbn [Np.height Np.width] in Hys, Hxs.
  set (y_start := Z.max 0 (px_y - radius_px)).
  set (y_end := Z.min img_height (px_y + radius_px + 1)).
  set (x_start := Z.max 0 (px_x - radius_px)).
  set (x_end := Z.min img_width (px_x + radius_px + 1)).
  destruct ((y_start <=? y) && (y <? y_start + (y_end - y_start))
            && (x_start <=? x) && (x <? x_start + (x_end - x_start)))%Z eqn:Win.
  - apply andb_true_iff in Win. destruct Win as [Win W4].
    apply andb_true_iff in Win. destruct Win as [Win W3].
    apply andb_true_iff in Win. destruct Win as [W1 W2].
    apply Z.leb_le in W1, W3. apply Z.ltb_lt in W2, W4.
    rewrite Rplus_0_l, kernel_falloff.
    assert (By : broadcast_index
                   (radius_px + (y_end - px_y) - (radius_px - (px_y - y_start)))
                   (y - y_start) = (y - y_start)%Z).
    { unfold broadcast_index.
      match goal with |- context [(?s =? 1)%Z] =>
        destruct (Z.eqb_spec s 1); lia end. }
    assert (Bx : broadcast_index
                   (radius_px + (x_end - px_x) - (radius_px - (px_x - x_start)))
                   (x - x_start) = (x - x_start)%Z).
    { unfold broadcast_index.
      match goal with |- context [(?s =? 1)%Z] =>
        destruct (Z.eqb_spec s 1); lia end. }
    rewrite By, Bx. unfold pixel_distance, sqdist. cbn [fst snd].
    do 3 f_equal. ring.
  - symmetry. apply falloff_beyond. unfold pixel_distance.
    assert (Hfar : (radius_px * radius_px < sqdist y x (px_y, px_x))%Z).
    { unfold sqdist. cbn [fst snd].
      assert (Hout : (y < y_start \/ y_end <= y \/ x < x_start \/ x_end <= x)%Z).
      { destruct (Z.leb_spec y_start y); [|lia].
        destruct (Z.ltb_spec y (y_start + (y_end - y_start))); [|lia].
        destruct (Z.leb_spec x_start x); [|lia].
        destruct (Z.ltb_spec x (x_start + (x_end - x_start))); [|lia].
        discriminate. }
      assert (Hd : (radius_px < y - px_y \/ radius_px < px_y - y
                    \/ radius_px < x - px_x \/ radius_px < px_x - x)%Z)
        by (unfold y_start, y_end, x_start, x_end in Hout; lia).
      clear Hout Win. rewrite !Z.pow_2_r.
      pose proof (Z.square_nonneg (y - px_y)) as Hy2.
      pose proof (Z.square_nonneg (x - px_x)) as Hx2.
      destruct Hd as [H | [H | [H | H]]].
      - assert (radius_px * radius_px < (y - px_y) * (y - px_y))%Z
          by (apply square_beyond; lia). lia.
      - assert (radius_px * radius_px < (y - px_y) * (y - px_y))%Z
          by (apply square_beyond; lia). lia.
      - assert (radius_px * radius_px < (x - px_x) * (x - px_x))%Z
          by (apply square_beyond; lia). lia.
      - assert (radius_px * radius_px < (x - px_x) * (x - px_x))%Z
          by (apply square_beyond; lia). lia. }
    rewrite <- (sqrt_square (IZR radius_px)) by (now apply IZR_le).
    apply sqrt_lt_1_alt. split.
    + apply Rmult_le_pos; now apply IZR_le.
    + rewrite <- mult_IZR. now apply IZR_lt.
Qed.

(** [int(50 / 0.3)]: the kernel radius in pixels. *)
Lemma default_radius_px : Geo.py_int (50 / (3 # 10))%Q = 166%Z.
Proof. reflexivity. Qed.

Lemma pixel_distance_nonneg (y x : Z) (q : Z * Z) : 0 <= pixel_distance y x q.
Proof. apply sqrt_pos. Qed.

Lemma pixel_distance_zero (y x : Z) (q : Z * Z) :
  pixel_distance y x q = 0 <-> q = (y, x).
Proof.
  unfold pixel_distance.
  rewrite (sqrt_IZR_zero _ (sqdist_nonneg y x q)). apply sqdist_zero.
Qed.

(** The density field of one amenity, before and after scaling. *)
Lemma single_amenity_field (lon lat : Q) (b : Geo.bounds)
    (img_width img_height px_x px_y : Z) (max_points : R) :
  Geo.latlon_to_pixel lat lon (Geo.min_lat b) (Geo.max_lat b)
                      (Geo.min_lon b) (Geo.max_lon b) img_height img_width
  = Some (px_x, px_y) ->
  (0 <= px_x < img_width)%Z -> (0 <= px_y < img_height)%Z ->
  exists score,
    _calculate_amenity_priority [Masks.Point lon lat] b
      (img_width, img_height) max_points 50%Q = Some score
    /\ Np.height score = img_height /\ Np.width score = img_width
    /\ forall y x, Np.in_shape score y x ->
         Np.get score y x
         = falloff 166 (pixel_distance y x (px_y, px_x)) * max_points.
Proof.
  intros Hproj Hx Hy.
  unfold _calculate_amenity_priority.
  cbn [List.length Nat.eqb for_each collect_pixel].
  rewrite Hproj. cbn [bind app List.length Nat.eqb].
  rewrite default_radius_px.
  destruct (single_kernel_density 166 img_height img_width px_x px_y)
    as (d & Hd & Hh & Hw & Hval); [lia | exact Hx | exact Hy |].
  cbn [for_each]. rewrite Hd. cbn [bind].
  assert (Hcentre : Np.in_shape d px_y px_x)
    by (unfold Np.in_shape; rewrite Hh, Hw; lia).
  destruct (np_max_defined d px_y px_x Hcentre) as (m & Hm).
  rewrite Hm. cbn [bind].
  assert (Hm1 : m = 1).
  { pose proof (np_max_ge d m px_y px_x Hm Hcentre) as Hge.
    rewrite (Hval _ _ Hcentre) in Hge.
    assert (E0 : pixel_distance px_y px_x (px_y, px_x) = 0)
      by (now apply pixel_distance_zero).
    rewrite E0, falloff_centre in Hge by lia.
    destruct (np_max_attained d m Hm) as (y & x & Hs & Hv).
    rewrite (Hval _ _ Hs) in Hv.
    pose proof (falloff_range 166 (pixel_distance y x (px_y, px_x))). lra. }
  subst m. destruct (Rlt_dec 0 1) as [_ | Hn]; [|exfalso; lra].
  eexists. split; [reflexivity|].
  cbn [scale Np.map Np.height Np.width Np.get].
  split; [exact Hh|]. split; [exact Hw|].
  intros y x Hs. rewrite (Hval y x Hs). field.
Qed.

(** C8: with exactly one amenity point, projected inside the image, the
    amenity field has its maximum at that point's pixel and nowhere else,
    is weakly decreasing in the Euclidean pixel distance to it, and is 0
    at every pixel farther away than the kernel radius, [int(50 / 0.3)]
    = 166 pixels, hence also beyond 50 m at 0.3 m per pixel. *)
Theorem single_amenity_density (lon lat : Q) (b : Geo.bounds)
    (img_width img_height px_x px_y : Z) :
  Geo.latlon_to_pixel lat lon (Geo.min_lat b) (Geo.max_lat b)
                      (Geo.min_lon b) (Geo.max_lon b) img_height img_width
  = Some (px_x, px_y) ->
  (0 <= px_x < img_width)%Z -> (0 <= px_y < img_height)%Z ->
  exists score,
    _calculate_amenity_priority [Masks.Point lon lat] b
      (img_width, img_height) SCORE_AMENITY 50%Q = Some score
    /\ Np.height score = img_height /\ Np.width score = img_width
    /\ Np.get score px_y px_x = 10
    /\ (forall y x, Np.in_shape score y x ->
          Np.get score y x <= Np.get score px_y px_x)
    /\ (forall y x, Np.in_shape score y x -> (y, x) <> (px_y, px_x) ->
          Np.get score y x < Np.get score px_y px_x)
    /\ (forall y1 x1 y2 x2,
          Np.in_shape score y1 x1 -> Np.in_shape score y2 x2 ->
          pixel_distance y1 x1 (px_y, px_x) <= pixel_distance y2 x2 (px_y, px_x) ->
          Np.get score y2 x2 <= Np.get score y1 x1)
    /\ (forall y x, Np.in_shape score y x ->
          166 < pixel_distance y x (px_y, px_x) -> Np.get score y x = 0)
    /\ (forall y x, Np.in_shape score y x ->
          50 / 0.3 < pixel_distance y x (px_y, px_x) -> Np.get score y x = 0).
Proof.
  intros Hproj Hx Hy.
  destruct (single_amenity_field lon lat b img_width img_height px_x px_y
              SCORE_AMENITY Hproj Hx Hy) as (score & Hs & Hh & Hw & Hval).
  exists score. split; [exact Hs|]. split; [exact Hh|]. split; [exact Hw|].
  unfold SCORE_AMENITY in Hval.
  assert (Hcentre : Np.in_shape score px_y px_x)
    by (unfold Np.in_shape; rewrite Hh, Hw; lia).
  assert (Hc : Np.get score px_y px_x = 10).
  { rewrite (Hval _ _ Hcentre).
    assert (E0 : pixel_distance px_y px_x (px_y, px_x) = 0)
      by (now apply pixel_distance_zero).
    rewrite E0, falloff_centre by lia. lra. }
  split; [exact Hc|]. rewrite Hc.
  split; [|split; [|split; [|split]]].
  - intros y x Hin. rewrite (Hval _ _ Hin).
    pose proof (falloff_range 166 (pixel_distance y x (px_y, px_x))). lra.
  - intros y x Hin Hne. rewrite (Hval _ _ Hin).
    assert (0 < pixel_distance y x (px_y, px_x)).
    { pose proof (pixel_distance_nonneg y x (px_y, px_x)) as Hp.
      destruct Hp as [Hp | Hp]; [exact Hp|].
      symmetry in Hp. apply pixel_distance_zero in Hp. congruence. }
    assert (falloff 166 (pixel_distance y x (px_y, px_x)) < 1)
      by (apply falloff_below_one; [lia | assumption]).
    lra.
  - intros y1 x1 y2 x2 H1 H2 Hle.
    rewrite (Hval _ _ H1), (Hval _ _ H2).
    assert (falloff 166 (pixel_distance y2 x2 (px_y, px_x))
            <= falloff 166 (pixel_distance y1 x1 (px_y, px_x))).
    { apply falloff_antitone; [lia|]. split; [|exact Hle].
      apply pixel_distance_nonneg. }
    lra.
  - intros y x Hin Hfar. rewrite (Hval _ _ Hin).
    rewrite falloff_beyond; [lra | exact Hfar].
  - intros y x Hin Hfar. rewrite (Hval _ _ Hin).
    rewrite falloff_beyond; [lra | lra].
Qed.

Lemma single_amenity_density_witness :
  exists score,
    _calculate_amenity_priority [Masks.Point (1 # 2) (1 # 2)]
      (Geo.Bounds 0 0 1 1) (400, 400)%Z SCORE_AMENITY 50%Q = Some score
    /\ Np.get score 200 200 = 10
    /\ (forall y x, Np.in_shape score y x -> (y, x) <> (200, 200)%Z ->
          Np.get score y x < Np.get score 200 200).
Proof.
  destruct (single_amenity_density (1 # 2) (1 # 2) (Geo.Bounds 0 0 1 1)
              400 400 200 200)
    as (score & Hs & _ & _ & Hc & _ & Hmax & _).
  - reflexivity.
  - lia.
  - lia.
  - exists score. split; [exact Hs|]. split; [exact Hc | exact Hmax].
Defined.

(** A location with a sidewalk along its left edge and no amenity: the
    calculator returns, and C1 and C2 apply to its result. *)
Lemma calculate_sample_returns :
  exists r,
    calculate (Np.full 3 3 0)
              (Np.Array 3 3 (fun y x => (x =? 0)%Z))
              (Np.full 3 3 false) (Np.full 3 3 false) (Np.full 3 3 false)
              [] (Geo.Bounds 0 0 1 1) = Some r.
Proof. eexists. reflexivity. Defined.

Lemma priority_score_range_witness :
  exists r,
    calculate (Np.full 3 3 0)
              (Np.Array 3 3 (fun y x => (x =? 0)%Z))
              (Np.full 3 3 false) (Np.full 3 3 false) (Np.full 3 3 false)
              [] (Geo.Bounds 0 0 1 1) = Some r
    /\ 0 <= Np.get (enhanced_priority_score r) 1 1 <= 100.
Proof.
  destruct calculate_sample_returns as [r Hr].
  exists r. split; [exact Hr|].
  apply (priority_score_range _ _ _ _ _ _ _ r 1 1) in Hr.
  - exact Hr.
  - repeat split; reflexivity.
  - unfold Np.in_shape; simpl; lia.
Defined.

Lemma priority_bands_partition_witness :
  exists r,
    calculate (Np.full 3 3 0)
              (Np.Array 3 3 (fun y x => (x =? 0)%Z))
              (Np.full 3 3 false) (Np.full 3 3 false) (Np.full 3 3 false)
              [] (Geo.Bounds 0 0 1 1) = Some r
    /\ Np.get (critical_priority r) 1 1 && Np.get (high_priority r) 1 1
       = false
    /\ (Np.get (critical_priority r) 1 1 || Np.get (high_priority r) 1 1
        || Np.get (medium_priority r) 1 1 || Np.get (low_priority r) 1 1
        = true
        <-> 0 < Np.get (enhanced_priority_score r) 1 1 /\ true = true).
Proof.
  destruct calculate_sample_returns as [r Hr].
  exists r. split; [exact Hr|].
  pose proof (fun G S => priority_bands_partition _ _ _ _ _ _ _ r 1 1 G Hr S)
    as H.
  cbv zeta in H.
  destruct H as (_ & _ & _ & _ & (Hd & _) & Hu).
  - repeat split; reflexivity.
  - unfold Np.in_shape; simpl; lia.
  - split; [exact Hd | exact Hu].
Defined.

(** *** Further properties of the components *)

(** Sidewalk proximity on a non-empty mask: 35 points up to 20 pixels from
    the nearest sidewalk pixel, 20 points up to 50 pixels, 5 points
    beyond; the sidewalk pixels themselves get 35. *)
Theorem sidewalk_proximity_tiers (sidewalk_mask : Np.ndarray bool) (y x : Z) :
  Np.any sidewalk_mask = true ->
  Np.in_shape sidewalk_mask y x ->
  exists D : Z,
    nearest_sqdist sidewalk_mask y x D /\
    let distance_px := sqrt (IZR D) in
    let score :=
      Np.get (_calculate_sidewalk_priority sidewalk_mask SCORE_SIDEWALK) y x in
    (distance_px <= 20 -> score = 35)
    /\ (20 < distance_px <= 50 -> score = 20)
    /\ (50 < distance_px -> score = 5)
    /\ (Np.get sidewalk_mask y x = true -> score = 35).
Proof.
  intros Hany Hs.
  destruct (distance_to_mask sidewalk_mask y x Hany) as (D & Hnear & Hd).
  exists D. split; [exact Hnear|].
  pose proof (nearest_sqdist_nonneg _ _ _ _ Hnear) as HD.
  unfold _calculate_sidewalk_priority. rewrite Hany.
  cbn [negb Np.get Np.assign_where Np.and Np.zip_with Np.map Np.full_like
       ge_ le_ gt_ lt_].
  rewrite Hd. set (d := sqrt (IZR D)).
  assert (Hpos : 0 <= d) by apply sqrt_pos.
  repeat split.
  - intros H1. decide_comparisons; cbn; lra.
  - intros [H1 H2]. decide_comparisons; cbn; lra.
  - intros H1. decide_comparisons; cbn; lra.
  - intros Hv. apply (nearest_sqdist_zero _ _ _ _ Hs Hnear) in Hv.
    apply (sqrt_IZR_zero _ HD) in Hv. fold d in Hv.
    decide_comparisons; cbn; lra.
Qed.

Lemma sidewalk_proximity_tiers_witness :
  let sidewalk_mask := Np.Array 1 80 (fun y x => (y =? 0)%Z && (x =? 0)%Z) in
  exists D : Z,
    nearest_sqdist sidewalk_mask 0 30 D /\
    let distance_px := sqrt (IZR D) in
    let score :=
      Np.get (_calculate_sidewalk_priority sidewalk_mask SCORE_SIDEWALK) 0 30 in
    (distance_px <= 20 -> score = 35)
    /\ (20 < distance_px <= 50 -> score = 20)
    /\ (50 < distance_px -> score = 5)
    /\ (Np.get sidewalk_mask 0 30 = true -> score = 35).
Proof.
  intros sidewalk_mask.
  apply (sidewalk_proximity_tiers sidewalk_mask 0 30).
  - reflexivity.
  - unfold Np.in_shape; simpl; lia.
Defined.

(** Sun exposure: 20 points below shadow intensity 0.3, 12 points from
    0.3 up to 0.6, 5 points from 0.6 on; every pixel gets one of the
    three, so the component is never below 5. *)
Theorem sun_exposure_tiers (shadow_intensity : Np.ndarray R) (y x : Z) :
  let v := Np.get shadow_intensity y x in
  let score := Np.get (_calculate_sun_priority shadow_intensity SCORE_SUN) y x in
  (v < 0.3 /\ score = 20)
  \/ (0.3 <= v < 0.6 /\ score = 12)
  \/ (0.6 <= v /\ score = 5).
Proof.
  intros v score. unfold score, _calculate_sun_priority.
  cbn [Np.get Np.assign_where Np.and Np.zip_with Np.map Np.full_like
       ge_ le_ gt_ lt_]. fold v.
  decide_comparisons; cbn.
  all: try (left; split; [lra | reflexivity]).
  all: try (right; left; split; [lra | reflexivity]).
  all: try (right; right; split; [lra | reflexivity]).
  all: exfalso; lra.
Qed.

Lemma sidewalk_values (mask : Np.ndarray bool) (max_points : R) (y x : Z) :
  let score := Np.get (_calculate_sidewalk_priority mask max_points) y x in
  (score = 35 /\ Np.any mask = true) \/ 0 <= score <= 20.
Proof.
  intros score. unfold score, _calculate_sidewalk_priority.
  destruct (Np.any mask); cbn; [|right; lra].
  decide_comparisons; cbn; try (left; split; [lra | reflexivity]);
    right; lra.
Qed.

(** Every valid pixel scores at least 5 points, so it lies in one of the
    four bands; a pixel on a building, a street or vegetation scores 0 and
    lies in none. *)
Theorem bands_cover_valid_area (shadow_intensity : Np.ndarray R)
    (sidewalk_mask building_mask street_mask vegetation_mask : Np.ndarray bool)
    (amenities_gdf : list Masks.geometry) (b : Geo.bounds)
    (r : priority_result) (y x : Z) :
  one_grid shadow_intensity sidewalk_mask building_mask street_mask
           vegetation_mask ->
  calculate shadow_intensity sidewalk_mask building_mask street_mask
            vegetation_mask amenities_gdf b = Some r ->
  Np.in_shape shadow_intensity y x ->
  let valid := negb (Np.get building_mask y x)
               && negb (Np.get street_mask y x)
               && negb (Np.get vegetation_mask y x) in
  let score := Np.get (enhanced_priority_score r) y x in
  let in_a_band := Np.get (critical_priority r) y x
                   || Np.get (high_priority r) y x
                   || Np.get (medium_priority r) y x
                   || Np.get (low_priority r) y x in
  (valid = true -> 5 <= score /\ in_a_band = true)
  /\ (valid = false -> score = 0 /\ in_a_band = false).
Proof.
  intros _ Hcalc Hs valid score in_a_band.
  destruct (calculate_score _ _ _ _ _ _ _ _ Hcalc) as (am & Ham & Hpix).
  destruct (Hpix y x) as (Hsc & Hc & Hh & Hm & Hl).
  fold valid score in Hsc, Hc, Hh, Hm, Hl.
  pose proof (sidewalk_range sidewalk_mask SCORE_SIDEWALK y x).
  pose proof (building_range building_mask SCORE_BUILDING y x).
  assert (Hsun : 5 <= Np.get (_calculate_sun_priority shadow_intensity
                                SCORE_SUN) y x).
  { destruct (sun_exposure_tiers shadow_intensity y x)
      as [[_ E] | [[_ E] | [_ E]]]; rewrite E; lra. }
  assert (Hmp : 0 <= SCORE_AMENITY) by (unfold SCORE_AMENITY; lra).
  destruct (amenity_range _ _ _ _ _ _ _ Hmp Ham) as (Hh' & Hw' & Ha).
  assert (0 <= Np.get am y x <= SCORE_AMENITY).
  { apply Ha. unfold Np.in_shape in *. rewrite Hh', Hw'. exact Hs. }
  unfold in_a_band. rewrite Hc, Hh, Hm, Hl.
  unfold PRIORITY_CRITICAL_MIN, PRIORITY_HIGH_MIN, PRIORITY_MEDIUM_MIN.
  split; intros Hv; rewrite Hv in *.
  - assert (Hge : 5 <= score) by (rewrite Hsc; lra).
    split; [exact Hge|]. clear - Hge.
    decide_comparisons; cbn; try reflexivity; exfalso; lra.
  - assert (Hz : score = 0) by (rewrite Hsc; lra).
    split; [exact Hz|]. now rewrite !andb_false_r.
Qed.

Lemma bands_cover_valid_area_witness :
  exists r,
    calculate (Np.full 3 3 0)
              (Np.Array 3 3 (fun y x => (x =? 0)%Z))
              (Np.full 3 3 false) (Np.full 3 3 false) (Np.full 3 3 false)
              [] (Geo.Bounds 0 0 1 1) = Some r
    /\ 5 <= Np.get (enhanced_priority_score r) 1 1.
Proof.
  destruct calculate_sample_returns as [r Hr].
  exists r. split; [exact Hr|].
  pose proof (fun G S => bands_cover_valid_area _ _ _ _ _ _ _ r 1 1 G Hr S)
    as H.
  cbv zeta in H. destruct H as [H _].
  - repeat split; reflexivity.
  - unfold Np.in_shape; simpl; lia.
  - apply H. reflexivity.
Defined.

(** No score exceeds 90 (the fifth component is constantly 0), and a
    pixel reaches the critical band only with the full sidewalk
    component: the sidewalk mask is not empty and the pixel gets its 35
    points. *)
Theorem critical_needs_sidewalk (shadow_intensity : Np.ndarray R)
    (sidewalk_mask building_mask street_mask vegetation_mask : Np.ndarray bool)
    (amenities_gdf : list Masks.geometry) (b : Geo.bounds)
    (r : priority_result) (y x : Z) :
  one_grid shadow_intensity sidewalk_mask building_mask street_mask
           vegetation_mask ->
  calculate shadow_intensity sidewalk_mask building_mask street_mask
            vegetation_mask amenities_gdf b = Some r ->
  Np.in_shape shadow_intensity y x ->
  Np.get (enhanced_priority_score r) y x <= 90
  /\ (Np.get (critical_priority r) y x = true ->
      Np.any sidewalk_mask = true
      /\ Np.get (_calculate_sidewalk_priority sidewalk_mask SCORE_SIDEWALK) y x
         = 35).
Proof.
  intros _ Hcalc Hs.
  destruct (calculate_score _ _ _ _ _ _ _ _ Hcalc) as (am & Ham & Hpix).
  destruct (Hpix y x) as (Hsc & Hc & _).
  pose proof (sidewalk_range sidewalk_mask SCORE_SIDEWALK y x).
  pose proof (building_range building_mask SCORE_BUILDING y x).
  pose proof (sun_range shadow_intensity SCORE_SUN y x).
  assert (Hmp : 0 <= SCORE_AMENITY) by (unfold SCORE_AMENITY; lra).
  destruct (amenity_range _ _ _ _ _ _ _ Hmp Ham) as (Hh' & Hw' & Ha).
  assert (0 <= Np.get am y x <= 10).
  { apply Ha. unfold Np.in_shape in *. rewrite Hh', Hw'. exact Hs. }
  split.
  - rewrite Hsc. destruct (negb _ && negb _ && negb _)%bool; lra.
  - intros Hcrit. rewrite Hc in Hcrit.
    apply andb_true_iff in Hcrit. destruct Hcrit as [Hge Hv].
    apply Rleb_true in Hge. unfold PRIORITY_CRITICAL_MIN in Hge.
    rewrite Hsc, Hv in Hge.
    destruct (sidewalk_values sidewalk_mask SCORE_SIDEWALK y x)
      as [[E Hany] | Hlow]; [split; assumption | exfalso; lra].
Qed.

Lemma critical_needs_sidewalk_witness :
  exists r,
    calculate (Np.full 3 3 0)
              (Np.Array 3 3 (fun y x => (x =? 0)%Z))
              (Np.full 3 3 false) (Np.full 3 3 false) (Np.full 3 3 false)
              [] (Geo.Bounds 0 0 1 1) = Some r
    /\ Np.get (enhanced_priority_score r) 1 1 <= 90.
Proof.
  destruct calculate_sample_returns as [r Hr].
  exists r. split; [exact Hr|].
  pose proof (fun G S => critical_needs_sidewalk _ _ _ _ _ _ _ r 1 1 G Hr S)
    as H.
  destruct H as [H _].
  - repeat split; reflexivity.
  - unfold Np.in_shape; simpl; lia.
  - exact H.
Defined.

(** *** Amenities and the edges of the image *)


(** A loop stops with the exception of the first item whose body raises;
    here: of any item whose body raises in every state the loop can be in. *)
Lemma for_each_raises {A S : Type} (P : S -> Prop)
    (body : S -> A -> option S) (items : list A) (bad : A) :
  (forall s a s', P s -> body s a = Some s' -> P s') ->
  (forall s, P s -> body s bad = None) ->
  In bad items ->
  forall s, P s -> for_each items body s = None.
Proof.
  intros Hinv Hbad. induction items as [|a items IH]; intros Hin s Hs.
  - destruct Hin.
  - simpl. unfold bind. destruct (body s a) as [s'|] eqn:E; [|reflexivity].
    destruct Hin as [<- | Hin].
    + rewrite (Hbad s Hs) in E. discriminate.
    + apply IH; [exact Hin|]. eapply Hinv; eauto.
Qed.

Lemma add_kernel_raises (radius_px img_height img_width px_x px_y : Z)
    (d : Np.ndarray R) :
  (0 <= radius_px)%Z ->
  Np.height d = img_height -> Np.width d = img_width ->
  raising_offset img_width radius_px px_x
  \/ raising_offset img_height radius_px px_y ->
  add_kernel (make_kernel radius_px) radius_px img_height img_width d
             (px_x, px_y) = None.
Proof.
  intros Hr Hh Hw Hbad. unfold add_kernel, iadd_slice.
  rewrite Hh, Hw. cbn [Np.height Np.width make_kernel].
  unfold py_slice.
  match goal with |- (if ?c then _ else _) = None =>
    assert (Hc : c = false); [|now rewrite Hc] end.
  apply andb_false_iff. unfold broadcastable, slice_bound.
  destruct Hbad as [[Hx | Hx] | [Hy | Hy]]; [right | right | left | left];
    apply orb_false_iff; split; apply Z.eqb_neq;
    repeat match goal with
    | |- context [(?a <? ?b)%Z] => destruct (Z.ltb_spec a b)
    end; lia.
Qed.

(** With proper bounds the first loop collects the pixel of every point,
    in order, and skips the other geometries. *)
Lemma collect_pixels (b : Geo.bounds) (img_height img_width : Z)
    (amenities_gdf : list Masks.geometry) (acc : list (Z * Z)) :
  (Geo.min_lon b < Geo.max_lon b)%Q -> (Geo.min_lat b < Geo.max_lat b)%Q ->
  exists pixels,
    for_each amenities_gdf (collect_pixel b img_height img_width) acc
    = Some (acc ++ pixels)
    /\ forall x y px_x px_y,
         In (Masks.Point x y) amenities_gdf ->
         Geo.latlon_to_pixel y x (Geo.min_lat b) (Geo.max_lat b)
           (Geo.min_lon b) (Geo.max_lon b) img_height img_width
         = Some (px_x, px_y) ->
         In (px_x, px_y) pixels.
Proof.
  intros Hlon Hlat. revert acc.
  induction amenities_gdf as [|g l IH]; intros acc.
  - exists []. split; [simpl; now rewrite app_nil_r | intros ? ? ? ? []].
  - simpl. destruct g as [x y | c | e | gs |]; cbn [collect_pixel].
    + rewrite (latlon_to_pixel_defined y x _ _ _ _ img_height img_width
                 Hlon Hlat). cbn [bind].
      destruct (IH (acc ++ [(Geo.py_int ((x - Geo.min_lon b)
                  / (Geo.max_lon b - Geo.min_lon b) * inject_Z img_width),
                Geo.py_int ((Geo.max_lat b - y)
                  / (Geo.max_lat b - Geo.min_lat b) * inject_Z img_height))]))
        as (pixels & Hrun & Hin).
      eexists. split; [rewrite Hrun, <- app_assoc; reflexivity|].
      intros x' y' px_x px_y [E | Hl] Hp.
      * inversion E; subst x' y'.
        rewrite (latlon_to_pixel_defined y x _ _ _ _ img_height img_width
                   Hlon Hlat) in Hp. inversion Hp; subst. now left.
      * right. eapply Hin; eauto.
    + cbn [bind]. destruct (IH acc) as (pixels & Hrun & Hin).
      exists pixels. split; [exact Hrun|].
      intros x' y' px_x px_y [E | Hl] Hp; [discriminate | eapply Hin; eauto].
    + cbn [bind]. destruct (IH acc) as (pixels & Hrun & Hin).
      exists pixels. split; [exact Hrun|].
      intros x' y' px_x px_y [E | Hl] Hp; [discriminate | eapply Hin; eauto].
    + cbn [bind]. destruct (IH acc) as (pixels & Hrun & Hin).
      exists pixels. split; [exact Hrun|].
      intros x' y' px_x px_y [E | Hl] Hp; [discriminate | eapply Hin; eauto].
    + cbn [bind]. destruct (IH acc) as (pixels & Hrun & Hin).
      exists pixels. split; [exact Hrun|].
      intros x' y' px_x px_y [E | Hl] Hp; [discriminate | eapply Hin; eauto].
Qed.

(** One amenity point far enough outside the image makes the whole
    calculation raise: its pixel column [px] with [-w < px + 167 < 0] or
    [w + 166 < px <= w + 497], or its pixel row likewise against the
    height. *)
Theorem amenity_outside_image_raises (shadow_intensity : Np.ndarray R)
    (sidewalk_mask building_mask street_mask vegetation_mask : Np.ndarray bool)
    (amenities_gdf : list Masks.geometry) (b : Geo.bounds)
    (lon lat : Q) (px_x px_y : Z) :
  (Geo.min_lon b < Geo.max_lon b)%Q -> (Geo.min_lat b < Geo.max_lat b)%Q ->
  In (Masks.Point lon lat) amenities_gdf ->
  Geo.latlon_to_pixel lat lon (Geo.min_lat b) (Geo.max_lat b)
    (Geo.min_lon b) (Geo.max_lon b)
    (Np.height shadow_intensity) (Np.width shadow_intensity)
  = Some (px_x, px_y) ->
  raising_offset (Np.width shadow_intensity) 166 px_x
  \/ raising_offset (Np.height shadow_intensity) 166 px_y ->
  calculate shadow_intensity sidewalk_mask building_mask street_mask
            vegetation_mask amenities_gdf b = None.
Proof.
  intros Hlon Hlat Hin Hproj Hbad.
  unfold calculate.
  assert (Ham : _calculate_amenity_priority amenities_gdf b
                  (Np.width shadow_intensity, Np.height shadow_intensity)
                  SCORE_AMENITY 50%Q = None); [|now rewrite Ham].
  unfold _calculate_amenity_priority.
  destruct amenities_gdf as [|g0 l0] eqn:El; [destruct Hin|].
  cbn [List.length Nat.eqb]. rewrite <- El in *. clear El g0 l0.
  destruct (collect_pixels b (Np.height shadow_intensity)
              (Np.width shadow_intensity) amenities_gdf [] Hlon Hlat)
    as (pixels & Hrun & Hpix).
  rewrite Hrun. cbn [bind app].
  pose proof (Hpix _ _ _ _ Hin Hproj) as Hinp.
  destruct pixels as [|p0 ps] eqn:Ep; [destruct Hinp|].
  cbn [List.length Nat.eqb]. rewrite <- Ep in *. clear Ep p0 ps.
  rewrite default_radius_px.
  rewrite (for_each_raises
             (density_ok (Np.height shadow_intensity)
                         (Np.width shadow_intensity))
             _ pixels (px_x, px_y)); [reflexivity | | | exact Hinp |].
  - intros s a s' Hs Hbody. eapply add_kernel_ok; eauto.
  - intros s (Hh & Hw & _). apply add_kernel_raises; [lia | exact Hh | exact Hw | exact Hbad].
  - repeat split; cbn; intros; lra.
Qed.

Lemma amenity_outside_image_raises_witness :
  calculate (Np.full 400 400 0) (Np.full 400 400 false)
            (Np.full 400 400 false) (Np.full 400 400 false)
            (Np.full 400 400 false)
            [Masks.Point (- (1 # 2)) (1 # 2)] (Geo.Bounds 0 0 1 1) = None.
Proof.
  apply (amenity_outside_image_raises _ _ _ _ _ _ _ (- (1 # 2))%Q (1 # 2)%Q
           (-200) 200).
  - reflexivity.
  - reflexivity.
  - left; reflexivity.
  - reflexivity.
  - left. left. cbn. lia.
Defined.





(** An amenity collection without a point geometry (the empty one
    included) gives the all-zero component of the image shape, whatever
    the bounds are. *)
Theorem amenities_without_points (amenities_gdf : list Masks.geometry)
    (b : Geo.bounds) (img_width img_height : Z) (max_points : R)
    (sample_radius_m : Q) :
  forallb (fun g => negb (is_point g)) amenities_gdf = true ->
  _calculate_amenity_priority amenities_gdf b (img_width, img_height)
                              max_points sample_radius_m
  = Some (Np.full img_height img_width 0).
Proof.
  intros Hnp. unfold _calculate_amenity_priority.
  destruct (List.length amenities_gdf =? 0)%nat; [reflexivity|].
  assert (Hrun : forall acc,
             for_each amenities_gdf (collect_pixel b img_height img_width) acc
             = Some acc).
  { induction amenities_gdf as [|g l IH]; intros acc; [reflexivity|].
    simpl in Hnp. apply andb_true_iff in Hnp. destruct Hnp as [Hg Hl].
    simpl. destruct g; cbn [collect_pixel is_point negb] in *;
      try discriminate; cbn [bind]; now apply IH. }
  rewrite Hrun. reflexivity.
Qed.

Lemma amenities_without_points_witness :
  _calculate_amenity_priority
    [Masks.LineString [(0, 0); (1, 1)]%Q; Masks.OtherGeometry]
    (Geo.Bounds 0 0 0 0) (4, 5)%Z 10 50%Q
  = Some (Np.full 5 4 0).
Proof.
  apply (amenities_without_points _ (Geo.Bounds 0 0 0 0) 4 5 10 50%Q).
  reflexivity.
Defined.

End PriorityFacts.

(** ** More on the projection *)

Section GeoEdgeFacts.
Local Open Scope Q_scope.

Lemma py_int_integer (n : Z) : Geo.py_int (inject_Z n) = n.
Proof.
  unfold Geo.py_int.
  destruct (Qle_bool 0 (inject_Z n)); [apply Qfloor_Z | apply Qceiling_Z].
Qed.

Lemma py_int_comp (a b : Q) : a == b -> Geo.py_int a = Geo.py_int b.
Proof.
  intros E. unfold Geo.py_int. rewrite E.
  destruct (Qle_bool 0 b); [now apply Qfloor_comp | now apply Qceiling_comp].
Qed.

(** [int] is monotone. *)
Lemma py_int_monotone (a b : Q) : a <= b -> (Geo.py_int a <= Geo.py_int b)%Z.
Proof.
  intros Hab. unfold Geo.py_int.
  destruct (Qle_bool 0 a) eqn:Ea; destruct (Qle_bool 0 b) eqn:Eb.
  - now apply Qfloor_resp_le.
  - apply Qle_bool_iff in Ea.
    assert (Hb : ~ 0 <= b) by (rewrite <- Qle_bool_iff; congruence).
    exfalso. apply Hb. lra.
  - assert (Ha : ~ 0 <= a) by (rewrite <- Qle_bool_iff; congruence).
    apply Qle_bool_iff in Eb.
    assert (Hc : (Qceiling a <= 0)%Z).
    { change 0%Z with (Qceiling 0). apply Qceiling_resp_le. lra. }
    assert (Hf : (0 <= Qfloor b)%Z).
    { change 0%Z with (Qfloor 0). now apply Qfloor_resp_le. }
    lia.
  - now apply Qceiling_resp_le.
Qed.

(** Points within the bounds, edges included, get pixel coordinates from 0
    to the image size inclusive: the west and north edges map to 0, the
    east edge to [width] and the south edge to [height], one past the last
    column and row of the pixel grid. *)
Theorem latlon_to_pixel_range
    (lat lon min_lat max_lat min_lon max_lon : Q) (img_height img_width : Z) :
  min_lon <= lon -> lon <= max_lon -> min_lon < max_lon ->
  min_lat <= lat -> lat <= max_lat -> min_lat < max_lat ->
  (0 <= img_width)%Z -> (0 <= img_height)%Z ->
  exists x y : Z,
    Geo.latlon_to_pixel lat lon min_lat max_lat min_lon max_lon
                        img_height img_width = Some (x, y)
    /\ (0 <= x <= img_width)%Z /\ (0 <= y <= img_height)%Z
    /\ (lon == min_lon -> x = 0%Z) /\ (lon == max_lon -> x = img_width)
    /\ (lat == max_lat -> y = 0%Z) /\ (lat == min_lat -> y = img_height).
Proof.
  intros Hx1 Hx2 Hx Hy1 Hy2 Hy Hw Hh.
  rewrite latlon_to_pixel_defined by assumption.
  eexists; eexists; split; [reflexivity|].
  assert (HW : 0 <= inject_Z img_width)
    by (change 0 with (inject_Z 0); now rewrite <- Zle_Qle).
  assert (HH : 0 <= inject_Z img_height)
    by (change 0 with (inject_Z 0); now rewrite <- Zle_Qle).
  set (nx := (lon - min_lon) / (max_lon - min_lon)).
  set (ny := (max_lat - lat) / (max_lat - min_lat)).
  assert (Hnx : 0 <= nx /\ nx <= 1).
  { unfold nx. split; [apply Qle_shift_div_l; lra
                      | apply Qle_shift_div_r; lra]. }
  assert (Hny : 0 <= ny /\ ny <= 1).
  { unfold ny. split; [apply Qle_shift_div_l; lra
                      | apply Qle_shift_div_r; lra]. }
  assert (Bx : 0 <= nx * inject_Z img_width
               /\ nx * inject_Z img_width <= inject_Z img_width) by nra.
  assert (By : 0 <= ny * inject_Z img_height
               /\ ny * inject_Z img_height <= inject_Z img_height) by nra.
  split; [|split; [|split; [|split; [|split]]]].
  - split.
    + change 0%Z with (Geo.py_int 0). apply py_int_monotone. tauto.
    + rewrite <- (py_int_integer img_width) at 2.
      apply py_int_monotone. tauto.
  - split.
    + change 0%Z with (Geo.py_int 0). apply py_int_monotone. tauto.
    + rewrite <- (py_int_integer img_height) at 2.
      apply py_int_monotone. tauto.
  - intros E. change 0%Z with (Geo.py_int 0). apply py_int_comp.
    unfold nx. rewrite E. field. lra.
  - intros E. rewrite <- (py_int_integer img_width) at 2. apply py_int_comp.
    unfold nx. rewrite E. field. lra.
  - intros E. change 0%Z with (Geo.py_int 0). apply py_int_comp.
    unfold ny. rewrite E. field. lra.
  - intros E. rewrite <- (py_int_integer img_height) at 2. apply py_int_comp.
    unfold ny. rewrite E. field. lra.
Qed.

Lemma latlon_to_pixel_range_witness :
  exists x y : Z,
    Geo.latlon_to_pixel 0 1 0 1 0 1 640 640 = Some (x, y)
    /\ x = 640%Z /\ y = 640%Z.
Proof.
  destruct (latlon_to_pixel_range 0 1 0 1 0 1 640 640)
    as (x & y & Hp & _ & _ & _ & Hx & _ & Hy);
    try reflexivity; try discriminate.
  exists x, y. split; [exact Hp|].
  split; [apply Hx | apply Hy]; reflexivity.
Defined.

(** The projection keeps the order of coordinates: farther east is never
    farther left, farther north is never farther down. *)
Theorem latlon_to_pixel_monotone
    (lat1 lon1 lat2 lon2 min_lat max_lat min_lon max_lon : Q)
    (img_height img_width : Z) :
  min_lon < max_lon -> min_lat < max_lat ->
  (0 <= img_width)%Z -> (0 <= img_height)%Z ->
  lon1 <= lon2 -> lat1 <= lat2 ->
  exists x1 y1 x2 y2 : Z,
    Geo.latlon_to_pixel lat1 lon1 min_lat max_lat min_lon max_lon
                        img_height img_width = Some (x1, y1)
    /\ Geo.latlon_to_pixel lat2 lon2 min_lat max_lat min_lon max_lon
                           img_height img_width = Some (x2, y2)
    /\ (x1 <= x2)%Z /\ (y2 <= y1)%Z.
Proof.
  intros Hx Hy Hw Hh Hlon Hlat.
  rewrite !latlon_to_pixel_defined by assumption.
  do 4 eexists. split; [reflexivity|]. split; [reflexivity|].
  assert (HW : 0 <= inject_Z img_width)
    by (change 0 with (inject_Z 0); now rewrite <- Zle_Qle).
  assert (HH : 0 <= inject_Z img_height)
    by (change 0 with (inject_Z 0); now rewrite <- Zle_Qle).
  assert (Dx : 0 < / (max_lon - min_lon)) by (apply Qinv_lt_0_compat; lra).
  assert (Dy : 0 < / (max_lat - min_lat)) by (apply Qinv_lt_0_compat; lra).
  split; apply py_int_monotone; unfold Qdiv.
  - apply Qmult_le_compat_r; [|exact HW].
    apply Qmult_le_compat_r; lra.
  - apply Qmult_le_compat_r; [|exact HH].
    apply Qmult_le_compat_r; lra.
Qed.

Lemma latlon_to_pixel_monotone_witness :
  exists x1 y1 x2 y2 : Z,
    Geo.latlon_to_pixel (1 # 4) (1 # 4) 0 1 0 1 640 640 = Some (x1, y1)
    /\ Geo.latlon_to_pixel (1 # 2) (3 # 4) 0 1 0 1 640 640 = Some (x2, y2)
    /\ (x1 <= x2)%Z /\ (y2 <= y1)%Z.
Proof.
  apply (latlon_to_pixel_monotone (1 # 4) (1 # 4) (1 # 2) (3 # 4) 0 1 0 1
           640 640); try reflexivity; discriminate.
Defined.

End GeoEdgeFacts.

(** ** More on street classification *)

Section StreetTierFacts.
Import Streets.
Local Open Scope string_scope.

(** Settle a goal about membership of a string in the fixed type lists by
    comparing it with every listed name. *)
Ltac compare_with_names s :=
  repeat match goal with
  | |- context [String.eqb s ?c] =>
    destruct (String.eqb_spec s c); [subst s; reflexivity|]
  end; reflexivity.

(** The four type sets are pairwise disjoint: a value is a member of at
    most one of them. *)
Lemma type_sets_disjoint (t : tag_value) :
  py_in t PEDESTRIAN_PRIORITY_TYPES && py_in t LOW_TRAFFIC_TYPES = false
  /\ py_in t PEDESTRIAN_PRIORITY_TYPES && py_in t MEDIUM_TRAFFIC_TYPES = false
  /\ py_in t PEDESTRIAN_PRIORITY_TYPES && py_in t HIGH_TRAFFIC_TYPES = false
  /\ py_in t LOW_TRAFFIC_TYPES && py_in t MEDIUM_TRAFFIC_TYPES = false
  /\ py_in t LOW_TRAFFIC_TYPES && py_in t HIGH_TRAFFIC_TYPES = false
  /\ py_in t MEDIUM_TRAFFIC_TYPES && py_in t HIGH_TRAFFIC_TYPES = false.
Proof.
  destruct t as [s | l |]; [|repeat split; reflexivity ..].
  unfold py_in, PEDESTRIAN_PRIORITY_TYPES, LOW_TRAFFIC_TYPES,
    MEDIUM_TRAFFIC_TYPES, HIGH_TRAFFIC_TYPES. cbn [existsb].
  repeat split; compare_with_names s.
Qed.

(** Every output list is the input filtered by membership of the (first)
    highway value in that tier's set, the low-traffic list taking also
    the values in no set; so each tier keeps the input order, and the
    order of the tests in the loop decides nothing. *)
Theorem tiers_are_filters (streets : list street) :
  let r := filter_streets_by_type streets in
  let member types row := py_in (_get_highway_type row) types in
  pedestrian r = filter (member PEDESTRIAN_PRIORITY_TYPES) streets
  /\ medium_traffic r = filter (member MEDIUM_TRAFFIC_TYPES) streets
  /\ high_traffic r = filter (member HIGH_TRAFFIC_TYPES) streets
  /\ low_traffic r
     = filter (fun row => member LOW_TRAFFIC_TYPES row
                          || negb (member PEDESTRIAN_PRIORITY_TYPES row)
                             && negb (member MEDIUM_TRAFFIC_TYPES row)
                             && negb (member HIGH_TRAFFIC_TYPES row)) streets.
Proof.
  intros r member. unfold r. rewrite filter_streets_by_type_filters.
  cbn [pedestrian low_traffic medium_traffic high_traffic].
  split; [reflexivity|].
  split; [|split]; apply filter_ext; intros row; unfold member,
    goes_low, goes_medium, goes_high, goes_pedestrian;
    destruct (type_sets_disjoint (_get_highway_type row))
      as (D1 & D2 & D3 & D4 & D5 & D6);
    destruct (py_in (_get_highway_type row) PEDESTRIAN_PRIORITY_TYPES),
      (py_in (_get_highway_type row) LOW_TRAFFIC_TYPES),
      (py_in (_get_highway_type row) MEDIUM_TRAFFIC_TYPES),
      (py_in (_get_highway_type row) HIGH_TRAFFIC_TYPES);
    simpl in *; congruence.
Qed.

Lemma filter_same {A : Type} (f : A -> bool) (l : list A) :
  filter f (filter f l) = filter f l.
Proof.
  induction l as [|a l IH]; [reflexivity|]. simpl.
  destruct (f a) eqn:E; [|exact IH]. simpl. now rewrite E, IH.
Qed.

Lemma filter_excluded {A : Type} (f g : A -> bool) (l : list A) :
  (forall a, f a = true -> g a = false) -> filter g (filter f l) = [].
Proof.
  intros Hfg. induction l as [|a l IH]; [reflexivity|]. simpl.
  destruct (f a) eqn:E; [|exact IH]. simpl. now rewrite (Hfg a E).
Qed.

(** Classifying a tier again changes nothing: each of the four lists,
    given back to the classifier, comes out whole in its own tier, the
    other three tiers staying empty. *)
Theorem classification_idempotent (streets : list street) :
  let r := filter_streets_by_type streets in
  filter_streets_by_type (pedestrian r) = StreetDict (pedestrian r) [] [] []
  /\ filter_streets_by_type (low_traffic r) = StreetDict [] (low_traffic r) [] []
  /\ filter_streets_by_type (medium_traffic r)
     = StreetDict [] [] (medium_traffic r) []
  /\ filter_streets_by_type (high_traffic r)
     = StreetDict [] [] [] (high_traffic r).
Proof.
  intros r. unfold r. rewrite !filter_streets_by_type_filters.
  cbn [pedestrian low_traffic medium_traffic high_traffic].
  assert (Hexcl : forall row,
    (goes_pedestrian row = true ->
       goes_low row = false /\ goes_medium row = false
       /\ goes_high row = false)
    /\ (goes_low row = true ->
       goes_pedestrian row = false /\ goes_medium row = false
       /\ goes_high row = false)
    /\ (goes_medium row = true ->
       goes_pedestrian row = false /\ goes_low row = false
       /\ goes_high row = false)
    /\ (goes_high row = true ->
       goes_pedestrian row = false /\ goes_low row = false
       /\ goes_medium row = false)).
  { intros row. unfold goes_low, goes_medium, goes_high, goes_pedestrian.
    destruct (py_in (_get_highway_type row) PEDESTRIAN_PRIORITY_TYPES),
      (py_in (_get_highway_type row) LOW_TRAFFIC_TYPES),
      (py_in (_get_highway_type row) MEDIUM_TRAFFIC_TYPES),
      (py_in (_get_highway_type row) HIGH_TRAFFIC_TYPES);
      simpl; repeat split; intros; congruence. }
  repeat apply conj; f_equal;
    first [ apply filter_same
          | apply filter_excluded; intros row E;
            destruct (Hexcl row) as (H1 & H2 & H3 & H4);
            first [ apply H1 in E | apply H2 in E
                  | apply H3 in E | apply H4 in E ]; tauto ].
Qed.

End StreetTierFacts.

(** ** More on rasterisation *)

Section MaskBuilderFacts.
Import Masks.

Variable draw_polygon : list (Z * Z) -> Z -> Np.ndarray Z -> Np.ndarray Z.
Variable buffer : geometry -> Q -> geometry.
Variable to_crs : list geometry -> string -> list geometry.

Local Abbreviation create_mask := (Masks.create_mask draw_polygon buffer).
Local Abbreviation create_street_mask :=
  (Masks.create_street_mask draw_polygon buffer to_crs).
Local Abbreviation create_sidewalk_mask :=
  (Masks.create_sidewalk_mask draw_polygon buffer to_crs).
Local Abbreviation create_comprehensive_street_mask :=
  (Masks.create_comprehensive_street_mask draw_polygon buffer to_crs).

(** The sidewalk mask is the street mask of the pedestrian streets
    followed by the low-traffic streets, with the same buffer; it raises
    exactly when that street mask raises. *)
Theorem sidewalk_mask_is_street_mask
    (pedestrian_streets low_traffic_streets : list geometry)
    (satellite_img : image) (b : Geo.bounds) (buffer_m : Q) :
  create_sidewalk_mask pedestrian_streets low_traffic_streets
                       satellite_img b buffer_m
  = match create_street_mask (pedestrian_streets ++ low_traffic_streets)
                             satellite_img b buffer_m with
    | Some (mask, _) => Some mask
    | None => None
    end.
Proof.
  unfold Masks.create_sidewalk_mask, Masks.create_street_mask.
  destruct pedestrian_streets as [|p ps], low_traffic_streets as [|l ls];
    cbn [List.length Nat.ltb Nat.leb Nat.eqb orb app].
  - destruct (size satellite_img). reflexivity.
  - unfold bind. destruct (Masks.create_mask _ _ _ _ _) as [[m c]|]; reflexivity.
  - unfold bind. destruct (Masks.create_mask _ _ _ _ _) as [[m c]|]; reflexivity.
  - unfold bind. destruct (Masks.create_mask _ _ _ _ _) as [[m c]|]; reflexivity.
Qed.

Lemma add_tier_or (tier_streets : list geometry) (satellite_img : image)
    (b : Geo.bounds) (buffer_m : Q) (c : Np.ndarray bool) :
  match create_street_mask tier_streets satellite_img b buffer_m with
  | Some (tier_mask, _) =>
    exists c',
      Masks.add_tier draw_polygon buffer to_crs tier_streets satellite_img b
                     buffer_m c = Some c'
      /\ Np.height c' = Np.height c /\ Np.width c' = Np.width c
      /\ forall y x, Np.get c' y x = Np.get c y x || Np.get tier_mask y x
  | None =>
    Masks.add_tier draw_polygon buffer to_crs tier_streets satellite_img b
                   buffer_m c = None
  end.
Proof.
  unfold Masks.add_tier.
  destruct tier_streets as [|g l].
  - unfold Masks.create_street_mask. cbn [List.length Nat.eqb Nat.ltb Nat.leb].
    destruct (size satellite_img). exists c. repeat split.
    intros y x. cbn. now rewrite orb_false_r.
  - cbn [List.length Nat.ltb Nat.leb].
    destruct (Masks.create_street_mask _ _ _ _ _ _ _) as [[m n]|]; cbn [bind].
    + eexists. split; [reflexivity|]. repeat split.
    + reflexivity.
Qed.

(** The comprehensive street mask is the pixelwise OR of the four tier
    masks made with buffers of 25, 15, 10 and 5 m, in the shape of the
    image; it raises exactly when one of the four tier masks raises.  The
    emptiness tests in front of the four steps change nothing. *)
Theorem comprehensive_mask_is_union
    (pedestrian_streets low_traffic_streets medium_traffic_streets
     high_traffic_streets : list geometry)
    (satellite_img : image) (b : Geo.bounds) :
  let result :=
    create_comprehensive_street_mask pedestrian_streets low_traffic_streets
      medium_traffic_streets high_traffic_streets satellite_img b in
  match create_street_mask high_traffic_streets satellite_img b 25,
        create_street_mask medium_traffic_streets satellite_img b 15,
        create_street_mask low_traffic_streets satellite_img b 10,
        create_street_mask pedestrian_streets satellite_img b 5 with
  | Some (high_mask, _), Some (medium_mask, _),
    Some (low_mask, _), Some (ped_mask, _) =>
    exists mask,
      result = Some mask
      /\ Np.height mask = snd (size satellite_img)
      /\ Np.width mask = fst (size satellite_img)
      /\ forall y x,
           Np.get mask y x
           = Np.get high_mask y x || Np.get medium_mask y x
             || Np.get low_mask y x || Np.get ped_mask y x
  | _, _, _, _ => result = None
  end.
Proof.
  intros result. unfold result, Masks.create_comprehensive_street_mask.
  destruct (size satellite_img) as [img_width img_height] eqn:Esize.
  cbn [fst snd].
  pose proof (add_tier_or high_traffic_streets satellite_img b 25
                (Np.full img_height img_width false)) as H1.
  destruct (create_street_mask high_traffic_streets satellite_img b 25)
    as [[mh nh]|]; [|now rewrite H1].
  destruct H1 as (c1 & E1 & Hh1 & Hw1 & G1). rewrite E1. cbn [bind].
  pose proof (add_tier_or medium_traffic_streets satellite_img b 15 c1) as H2.
  destruct (create_street_mask medium_traffic_streets satellite_img b 15)
    as [[mm nm]|]; [|now rewrite H2].
  destruct H2 as (c2 & E2 & Hh2 & Hw2 & G2). rewrite E2. cbn [bind].
  pose proof (add_tier_or low_traffic_streets satellite_img b 10 c2) as H3.
  destruct (create_street_mask low_traffic_streets satellite_img b 10)
    as [[ml nl]|].
  2: { rewrite H3. cbn [bind].
       destruct (create_street_mask pedestrian_streets satellite_img b 5)
         as [[? ?]|]; reflexivity. }
  destruct H3 as (c3 & E3 & Hh3 & Hw3 & G3). rewrite E3. cbn [bind].
  pose proof (add_tier_or pedestrian_streets satellite_img b 5 c3) as H4.
  destruct (create_street_mask pedestrian_streets satellite_img b 5)
    as [[mp np]|]; [|now rewrite H4].
  destruct H4 as (c4 & E4 & Hh4 & Hw4 & G4). rewrite E4. cbn [bind].
  exists c4. split; [reflexivity|].
  split; [rewrite Hh4, Hh3, Hh2, Hh1; reflexivity|].
  split; [rewrite Hw4, Hw3, Hw2, Hw1; reflexivity|].
  intros y x. rewrite G4, G3, G2, G1. reflexivity.
Qed.

Lemma project_coords_defined (coords : list (Q * Q)) (b : Geo.bounds)
    (img_height img_width : Z) :
  (Geo.min_lon b < Geo.max_lon b)%Q -> (Geo.min_lat b < Geo.max_lat b)%Q ->
  exists pixel_coords,
    project_coords coords b img_height img_width = Some pixel_coords
    /\ List.length pixel_coords = List.length coords.
Proof.
  intros Hlon Hlat. induction coords as [|[lon lat] rest IH].
  - exists []. split; reflexivity.
  - destruct IH as (ps & E & Hlen). cbn [project_coords].
    rewrite (latlon_to_pixel_defined lat lon _ _ _ _ img_height img_width
               Hlon Hlat). cbn [bind]. rewrite E. cbn [bind].
    eexists. split; [reflexivity|]. simpl. now rewrite Hlen.
Qed.

Lemma ring_drawn_nonneg (poly : geometry) : (0 <= ring_drawn poly)%Z.
Proof.
  destruct poly; cbn; try lia.
  destruct (3 <=? Z.of_nat (List.length exterior))%Z; lia.
Qed.

Lemma rings_drawn_nonneg (parts : list geometry) :
  (0 <= fold_right (fun p n => ring_drawn p + n) 0 parts)%Z.
Proof.
  induction parts as [|p parts IH]; simpl; [lia|].
  pose proof (ring_drawn_nonneg p). lia.
Qed.

Lemma polygons_drawn_nonneg (geom : geometry) : (0 <= polygons_drawn geom)%Z.
Proof.
  destruct geom; cbn [polygons_drawn]; try lia.
  - apply (ring_drawn_nonneg (Polygon exterior)).
  - apply rings_drawn_nonneg.
Qed.

(** The inner loop draws the rings with at least 3 coordinates and leaves
    the canvas alone when it draws none. *)
Lemma draw_parts (b : Geo.bounds) (img_height img_width : Z)
    (parts : list geometry) :
  (Geo.min_lon b < Geo.max_lon b)%Q -> (Geo.min_lat b < Geo.max_lat b)%Q ->
  forall (mask : Np.ndarray Z) (count : Z),
  exists mask',
    for_each parts (draw_one draw_polygon b img_height img_width) (mask, count)
    = Some (mask', (count + fold_right (fun p n => ring_drawn p + n) 0 parts)%Z)
    /\ (fold_right (fun p n => ring_drawn p + n)%Z 0%Z parts = 0%Z ->
        mask' = mask).
Proof.
  intros Hlon Hlat. induction parts as [|p parts IH]; intros mask count.
  - exists mask. simpl. rewrite Z.add_0_r. auto.
  - cbn [for_each fold_right].
    pose proof (rings_drawn_nonneg parts) as Hnn.
    destruct p as [x y | c | ext | gs |]; cbn [draw_one ring_drawn bind].
    + destruct (IH mask count) as (m' & E & Hz). exists m'. rewrite E. auto.
    + destruct (IH mask count) as (m' & E & Hz). exists m'. rewrite E. auto.
    + destruct (project_coords_defined ext b img_height img_width Hlon Hlat)
        as (ps & Eps & Hlen).
      rewrite Eps. cbn [bind]. rewrite Hlen.
      destruct (3 <=? Z.of_nat (List.length ext))%Z; cbn [bind].
      * destruct (IH (draw_polygon ps 255 mask) (count + 1)%Z)
          as (m' & E & Hz).
        exists m'. rewrite E. split; [f_equal; f_equal; lia | lia].
      * destruct (IH mask count) as (m' & E & Hz). exists m'. rewrite E. auto.
    + destruct (IH mask count) as (m' & E & Hz). exists m'. rewrite E. auto.
    + destruct (IH mask count) as (m' & E & Hz). exists m'. rewrite E. auto.
Qed.

Lemma draw_rows (b : Geo.bounds) (img_height img_width : Z)
    (frame : list geometry) :
  (Geo.min_lon b < Geo.max_lon b)%Q -> (Geo.min_lat b < Geo.max_lat b)%Q ->
  forallb (fun g => negb (is_linestring g)) frame = true ->
  forall (mask : Np.ndarray Z) (count : Z),
  exists mask',
    for_each frame (draw_row draw_polygon buffer b img_height img_width)
             (mask, count)
    = Some (mask',
            (count + fold_right (fun g n => polygons_drawn g + n) 0 frame)%Z)
    /\ (fold_right (fun g n => polygons_drawn g + n)%Z 0%Z frame = 0%Z ->
        mask' = mask).
Proof.
  intros Hlon Hlat. induction frame as [|g frame IH]; intros Hnl mask count.
  - exists mask. simpl. rewrite Z.add_0_r. auto.
  - simpl in Hnl. apply andb_true_iff in Hnl. destruct Hnl as [Hg Hnl].
    specialize (IH Hnl).
    cbn [for_each fold_right].
    pose proof (polygons_drawn_nonneg g) as Hgn.
    assert (Hfn : (0 <= fold_right (fun g n => polygons_drawn g + n) 0 frame)%Z).
    { clear. induction frame as [|a l IHl]; simpl; [lia|].
      pose proof (polygons_drawn_nonneg a). lia. }
    destruct g as [x y | c | ext | gs |]; cbn [draw_row polygons_drawn bind].
    + destruct (IH mask count) as (m' & E & Hz). exists m'. rewrite E. auto.
    + discriminate.
    + destruct (draw_parts b img_height img_width [Polygon ext] Hlon Hlat
                  mask count) as (m1 & E1 & Hz1).
      rewrite E1. cbn [bind fold_right].
      destruct (IH m1 (count + (ring_drawn (Polygon ext) + 0))%Z)
        as (m' & E & Hz).
      exists m'. rewrite E. split; [f_equal; f_equal; lia|].
      intros H0. cbn [polygons_drawn] in Hgn.
      rewrite Hz by lia. apply Hz1. cbn [fold_right]. lia.
    + destruct (draw_parts b img_height img_width gs Hlon Hlat mask count)
        as (m1 & E1 & Hz1).
      rewrite E1. cbn [bind].
      destruct (IH m1 (count + fold_right (fun p n => ring_drawn p + n) 0 gs)%Z)
        as (m' & E & Hz).
      exists m'. rewrite E. split; [f_equal; f_equal; lia|].
      intros H0. cbn [polygons_drawn] in Hgn.
      rewrite Hz by lia. apply Hz1. lia.
    + destruct (IH mask count) as (m' & E & Hz). exists m'. rewrite E. auto.
Qed.

(** On a frame without line strings and with proper bounds, [create_mask]
    returns; its count is the number of polygon rings with at least 3
    coordinates (the parts of multi-polygons included), points, unknown
    geometries and shorter rings being skipped silently; when nothing is
    drawn the mask is all false in the shape of the image. *)
Theorem create_mask_counts_drawn_rings (geometries_gdf : list geometry)
    (satellite_img : image) (b : Geo.bounds) :
  (Geo.min_lon b < Geo.max_lon b)%Q -> (Geo.min_lat b < Geo.max_lat b)%Q ->
  forallb (fun g => negb (is_linestring g)) geometries_gdf = true ->
  let drawn :=
    fold_right (fun g n => polygons_drawn g + n)%Z 0%Z geometries_gdf in
  exists mask,
    create_mask geometries_gdf satellite_img b = Some (mask, drawn)
    /\ (drawn = 0%Z ->
        Np.height mask = snd (size satellite_img)
        /\ Np.width mask = fst (size satellite_img)
        /\ forall y x, Np.get mask y x = false).
Proof.
  intros Hlon Hlat Hnl drawn. unfold Masks.create_mask.
  destruct (size satellite_img) as [img_width img_height]. cbn [fst snd].
  destruct geometries_gdf as [|g l] eqn:El.
  - cbn. eexists. split; [reflexivity|]. intros _. repeat split.
  - cbn [List.length Nat.eqb]. rewrite <- El in *. subst drawn.
    rewrite <- El. clear El g l.
    destruct (draw_rows b img_height img_width geometries_gdf Hlon Hlat Hnl
                (Np.full img_height img_width 0%Z) 0%Z) as (m' & E & Hz).
    rewrite E. cbn [bind]. rewrite Z.add_0_l.
    eexists. split; [reflexivity|].
    intros H0. rewrite (Hz H0). cbn. repeat split.
Qed.

End MaskBuilderFacts.

Lemma create_mask_counts_drawn_rings_witness :
  let frame :=
    [ Masks.Polygon [(0, 0); (1, 0); (1, 1)]%Q;
      Masks.Point (1 # 2) (1 # 2);
      Masks.Polygon [(0, 0); (1, 1)]%Q;
      Masks.MultiPolygon
        [ Masks.Polygon [(0, 0); (1, 0); (1, 1); (0, 1)]%Q;
          Masks.Polygon [(0, 0); (1, 0); (0, 1)]%Q ] ] in
  exists mask,
    Masks.create_mask (fun _ _ canvas => canvas) (fun g _ => g) frame
                      (Masks.Image (4, 4)%Z) (Geo.Bounds 0 0 1 1)
    = Some (mask, 3%Z).
Proof.
  intros frame.
  destruct (create_mask_counts_drawn_rings (fun _ _ canvas => canvas)
              (fun g _ => g) frame (Masks.Image (4, 4)%Z) (Geo.Bounds 0 0 1 1))
    as (mask & E & _); try reflexivity.
  exists mask. exact E.
Defined.

(** ** Critical spots *)

Section SpotFacts.
Import Spots.
Local Open Scope Q_scope.

Lemma insert_desc_perm (s : spot) (l : list spot) :
  Permutation (insert_desc s l) (s :: l).
Proof.
  induction l as [|t r IH]; simpl; [reflexivity|].
  destruct (Qle_bool (priority_score t) (priority_score s)); [reflexivity|].
  rewrite IH. apply perm_swap.
Qed.


Lemma insert_desc_sorted (s : spot) (l : list spot) :
  StronglySorted score_desc l -> StronglySorted score_desc (insert_desc s l).
Proof.
  induction l as [|t r IH]; intros Hl; simpl.
  - constructor; constructor.
  - destruct (Qle_bool (priority_score t) (priority_score s)) eqn:E.
    + apply Qle_bool_iff in E. constructor; [exact Hl|].
      inversion Hl as [|? ? Hr Ht]; subst. constructor; [exact E|].
      eapply Forall_impl; [|exact Ht]. unfold score_desc. intros u Hu. lra.
    + assert (Hlt : priority_score s < priority_score t).
      { apply Qnot_le_lt. rewrite <- Qle_bool_iff. congruence. }
      inversion Hl as [|? ? Hr Ht]; subst.
      constructor; [now apply IH|].
      apply (Permutation_Forall (Permutation_sym (insert_desc_perm s r))).
      constructor; [unfold score_desc; lra | exact Ht].
Qed.

Lemma sort_desc_sorted (l : list spot) : StronglySorted score_desc (sort_desc l).
Proof.
  induction l as [|s l IH]; simpl; [constructor|].
  now apply insert_desc_sorted.
Qed.

(** The sort is stable: the spots of any one score keep their order. *)
Lemma insert_desc_stable (k : Q) (s : spot) (l : list spot) :
  filter (same_score k) (insert_desc s l) = filter (same_score k) (s :: l).
Proof.
  induction l as [|t r IH]; [reflexivity|]. cbn [insert_desc].
  destruct (Qle_bool (priority_score t) (priority_score s)) eqn:E;
    [reflexivity|].
  assert (Hlt : priority_score s < priority_score t).
  { apply Qnot_le_lt. rewrite <- Qle_bool_iff. congruence. }
  cbn [filter] in *. rewrite IH.
  destruct (same_score k s) eqn:Es; [|reflexivity].
  destruct (same_score k t) eqn:Et; [|reflexivity].
  unfold same_score in Es, Et. apply Qeq_bool_iff in Es, Et. lra.
Qed.

Lemma sort_desc_stable (k : Q) (l : list spot) :
  filter (same_score k) (sort_desc l) = filter (same_score k) l.
Proof.
  induction l as [|s l IH]; [reflexivity|].
  cbn [sort_desc fold_right]. rewrite insert_desc_stable.
  cbn [filter]. fold (sort_desc l). now rewrite IH.
Qed.

Lemma filter_strongly_sorted {A : Type} (R : A -> A -> Prop)
    (f : A -> bool) (l : list A) :
  StronglySorted R l -> StronglySorted R (filter f l).
Proof.
  induction 1 as [|a l Hl IH Ha]; simpl; [constructor|].
  destruct (f a); [|exact IH].
  constructor; [exact IH|].
  rewrite Forall_forall in *. intros x Hx. apply filter_In in Hx.
  apply Ha. tauto.
Qed.

(** A list sorted by score whose equal-score runs are in label order is
    sorted by score and then label. *)
Lemma sorted_and_stable (l : list spot) :
  StronglySorted score_desc l ->
  (forall k, StronglySorted label_asc (filter (same_score k) l)) ->
  StronglySorted ranks_before l.
Proof.
  induction l as [|s l IH]; intros Hs Hk; [constructor|].
  inversion Hs as [|? ? Hl Hfs]; subst.
  constructor.
  - apply IH; [exact Hl|]. intros k. specialize (Hk k). cbn [filter] in Hk.
    destruct (same_score k s); [now inversion Hk | exact Hk].
  - specialize (Hk (priority_score s)). cbn [filter] in Hk.
    assert (Ess : same_score (priority_score s) s = true)
      by (apply Qeq_bool_iff; reflexivity).
    rewrite Ess in Hk. inversion Hk as [|? ? _ Hids]; subst.
    rewrite Forall_forall in *. intros t Ht.
    pose proof (Hfs t Ht) as Hle. unfold score_desc in Hle.
    destruct (Qeq_bool (priority_score t) (priority_score s)) eqn:E.
    + right. split; [now apply Qeq_bool_iff|].
      apply Hids. apply filter_In. split; [exact Ht | exact E].
    + left. apply Qle_lteq in Hle. destruct Hle as [Hlt | Heq]; [exact Hlt|].
      apply Qeq_bool_iff in Heq. congruence.
Qed.

Lemma inject_Z_nonzero (n : Z) : n <> 0%Z -> ~ inject_Z n == 0.
Proof.
  intros Hn E. apply Hn. apply inject_Z_injective. exact E.
Qed.

Lemma pixel_to_latlon_defined (x_pixel y_pixel : Q) (b : Geo.bounds)
    (img_height img_width : Z) :
  img_height <> 0%Z -> img_width <> 0%Z ->
  Geo.pixel_to_latlon x_pixel y_pixel (Geo.min_lat b) (Geo.max_lat b)
                      (Geo.min_lon b) (Geo.max_lon b) img_height img_width
  = Some (Geo.max_lat b
          - y_pixel / inject_Z img_height * (Geo.max_lat b - Geo.min_lat b),
          Geo.min_lon b
          + x_pixel / inject_Z img_width * (Geo.max_lon b - Geo.min_lon b)).
Proof.
  intros Hh Hw. unfold Geo.pixel_to_latlon.
  rewrite !py_div_nonzero by (now apply inject_Z_nonzero). reflexivity.
Qed.

(** The loop appends the spot of every cluster of at least 20 pixels, in
    label order. *)
Lemma process_clusters (priority_score : Np.ndarray Q) (b : Geo.bounds)
    (img_height img_width : Z) (clusters : list component) :
  img_height <> 0%Z -> img_width <> 0%Z ->
  forall acc,
    for_each clusters (process_cluster priority_score b img_height img_width)
             acc
    = Some (acc ++ List.map (spot_of priority_score b img_height img_width)
                            (filter large_enough clusters)).
Proof.
  intros Hh Hw. induction clusters as [|c l IH]; intros acc.
  - simpl. now rewrite app_nil_r.
  - cbn [for_each filter]. unfold process_cluster at 1, large_enough at 1.
    destruct (area c <? 20)%Z; cbn [negb bind].
    + apply IH.
    + rewrite (pixel_to_latlon_defined _ _ b _ _ Hh Hw). cbn [bind].
      rewrite IH, <- app_assoc. reflexivity.
Qed.

Lemma clusters_skipped (priority_score : Np.ndarray Q) (b : Geo.bounds)
    (img_height img_width : Z) (clusters : list component) :
  (forall c, In c clusters -> (area c < 20)%Z) ->
  forall acc,
    for_each clusters (process_cluster priority_score b img_height img_width)
             acc = Some acc.
Proof.
  induction clusters as [|c l IH]; intros Hsmall acc; [reflexivity|].
  cbn [for_each]. unfold process_cluster at 1.
  assert (Hc : (area c <? 20)%Z = true)
    by (apply Z.ltb_lt, Hsmall; now left).
  rewrite Hc. cbn [bind]. apply IH. intros c' Hin. apply Hsmall. now right.
Qed.

Lemma no_foreground_no_components (a : Np.ndarray bool) :
  Np.any a = false -> label_components a = [].
Proof.
  intros Hany. unfold label_components.
  assert (Hfg : forall p, In p (Np.indices a) -> foreground a p = false).
  { intros p Hp. unfold foreground.
    apply in_indices in Hp.
    rewrite (proj1 (any_false a) Hany _ _ Hp). apply andb_false_r. }
  induction (Np.indices a) as [|p l IH]; [reflexivity|].
  cbn [fold_left]. rewrite Hfg by (now left). cbn [andb].
  apply IH. intros q Hq. apply Hfg. now right.
Qed.

Lemma labels_from (i : Z) (comps : list (list (Z * Z))) :
  Forall (fun c => (i <= label c)%Z) (number_from i comps).
Proof.
  revert i. induction comps as [|pix rest IH]; intros i; [constructor|].
  cbn [number_from]. constructor; [cbn; lia|].
  eapply Forall_impl; [|apply (IH (i + 1)%Z)]. cbn. intros c Hc. lia.
Qed.

Lemma labels_ascending (i : Z) (comps : list (list (Z * Z))) :
  StronglySorted (fun c d => (label c < label d)%Z) (number_from i comps).
Proof.
  revert i. induction comps as [|pix rest IH]; intros i; [constructor|].
  cbn [number_from]. constructor; [apply IH|].
  eapply Forall_impl; [|apply (labels_from (i + 1)%Z)]. cbn. intros c Hc. lia.
Qed.

Lemma map_strongly_sorted {A B : Type} (R : A -> A -> Prop)
    (R' : B -> B -> Prop) (f : A -> B) (l : list A) :
  (forall a a', R a a' -> R' (f a) (f a')) ->
  StronglySorted R l -> StronglySorted R' (List.map f l).
Proof.
  intros Hf. induction 1 as [|a l Hl IH Ha]; simpl; constructor; [exact IH|].
  rewrite Forall_forall in *. intros y Hy. apply in_map_iff in Hy.
  destruct Hy as (a' & <- & Ha'). apply Hf, Ha, Ha'.
Qed.

(** What the extractor returns when the image sizes are not zero. *)
Lemma extract_critical_spots_sorted (critical_priority : Np.ndarray bool)
    (priority_score : Np.ndarray Q) (b : Geo.bounds)
    (img_height img_width : Z) :
  img_height <> 0%Z -> img_width <> 0%Z ->
  _extract_critical_spots critical_priority priority_score b
                          img_height img_width
  = Some (sort_desc
            (List.map (spot_of priority_score b img_height img_width)
               (filter large_enough
                  (connectedComponentsWithStats critical_priority)))).
Proof.
  intros Hh Hw. unfold _extract_critical_spots.
  destruct (Np.any critical_priority) eqn:Hany; cbn [negb].
  - rewrite (process_clusters _ _ _ _ _ Hh Hw). reflexivity.
  - unfold connectedComponentsWithStats.
    now rewrite (no_foreground_no_components _ Hany).
Qed.

(** The spot list comes out ordered by reported score, largest first, and
    spots with the same reported score stay in label order. *)
Theorem critical_spots_ranked (critical_priority : Np.ndarray bool)
    (priority_score : Np.ndarray Q) (b : Geo.bounds)
    (img_height img_width : Z) :
  img_height <> 0%Z -> img_width <> 0%Z ->
  exists spots,
    _extract_critical_spots critical_priority priority_score b
                            img_height img_width = Some spots
    /\ StronglySorted ranks_before spots.
Proof.
  intros Hh Hw. eexists.
  split; [now apply extract_critical_spots_sorted|].
  apply sorted_and_stable; [apply sort_desc_sorted|].
  intros k. rewrite sort_desc_stable.
  apply filter_strongly_sorted.
  apply (map_strongly_sorted (fun c d => (label c < label d)%Z)).
  - intros c d Hcd. exact Hcd.
  - apply filter_strongly_sorted. apply labels_ascending.
Qed.


(** A mask none of whose clusters has 20 pixels (the empty mask included)
    gives the empty list, whatever the image sizes; a cluster of at least
    20 pixels with an image size of zero makes the extractor raise. *)
Theorem critical_spots_edge_cases (critical_priority : Np.ndarray bool)
    (priority_score : Np.ndarray Q) (b : Geo.bounds)
    (img_height img_width : Z) :
  let clusters := connectedComponentsWithStats critical_priority in
  ((forall c, In c clusters -> (area c < 20)%Z) ->
   _extract_critical_spots critical_priority priority_score b
                           img_height img_width = Some [])
  /\ ((exists c, In c clusters /\ (20 <= area c)%Z) ->
      img_height = 0%Z \/ img_width = 0%Z ->
      _extract_critical_spots critical_priority priority_score b
                              img_height img_width = None).
Proof.
  intros clusters. split.
  - intros Hsmall. unfold _extract_critical_spots.
    destruct (Np.any critical_priority); cbn [negb]; [|reflexivity].
    fold clusters. now rewrite clusters_skipped.
  - intros (c & Hc & Hbig) Hzero. unfold _extract_critical_spots.
    destruct (Np.any critical_priority) eqn:Hany; cbn [negb].
    + fold clusters.
      rewrite (for_each_raises (fun _ => True) _ clusters c);
        [reflexivity | auto | | exact Hc | exact I].
      intros acc _. unfold process_cluster.
      assert (Hlt : (area c <? 20)%Z = false) by (apply Z.ltb_ge; exact Hbig).
      rewrite Hlt. unfold Geo.pixel_to_latlon, Geo.py_div.
      destruct Hzero as [-> | ->]; cbn.
      * destruct (Qeq_bool (inject_Z img_width) 0); reflexivity.
      * reflexivity.
    + exfalso. unfold clusters, connectedComponentsWithStats in Hc.
      rewrite (no_foreground_no_components _ Hany) in Hc. exact Hc.
Qed.

Lemma critical_spots_ranked_witness :
  exists spots,
    _extract_critical_spots
      (Np.Array 4 12 (fun y x => negb (x =? 6)%Z))
      (Np.Array 4 12 (fun y x => if (x <? 6)%Z then 8501 # 100 else 8504 # 100))
      (Geo.Bounds 0 0 1 1) 4 12 = Some spots
    /\ StronglySorted ranks_before spots.
Proof.
  apply (critical_spots_ranked
           (Np.Array 4 12 (fun y x => negb (x =? 6)%Z))
           (Np.Array 4 12 (fun y x => if (x <? 6)%Z then 8501 # 100
                                      else 8504 # 100))
           (Geo.Bounds 0 0 1 1) 4 12); discriminate.
Defined.


Lemma critical_spots_edge_cases_witness :
  _extract_critical_spots (Np.full 3 3 true) (Np.full 3 3 85)
                          (Geo.Bounds 0 0 1 1) 3 3 = Some []
  /\ _extract_critical_spots (Np.full 4 5 true) (Np.full 4 5 85)
                             (Geo.Bounds 0 0 1 1) 0 5 = None.
Proof.
  split.
  - apply (proj1 (critical_spots_edge_cases (Np.full 3 3 true) (Np.full 3 3 85)
                    (Geo.Bounds 0 0 1 1) 3 3)).
    intros c Hc. vm_compute in Hc. destruct Hc as [<- | []]. reflexivity.
  - apply (proj2 (critical_spots_edge_cases (Np.full 4 5 true) (Np.full 4 5 85)
                    (Geo.Bounds 0 0 1 1) 0 5)); [|now left].
    exists (hd (component_of 0 [])
               (connectedComponentsWithStats (Np.full 4 5 true))).
    split; [vm_compute; now left | vm_compute; discriminate].
Defined.

(** Rounding to one decimal moves a number by at most 0.05. *)
Lemma py_round_error (v : Q) : Qabs (inject_Z (Geo.py_round v) - v) <= 1 # 2.
Proof.
  unfold Geo.py_round.
  pose proof (Qfloor_le v) as Hlo. pose proof (Qlt_floor v) as Hhi.
  rewrite inject_Z_plus in Hhi. change (inject_Z 1) with 1 in Hhi.
  set (f := Qfloor v) in *.
  apply Qabs_Qle_condition.
  destruct (Qcompare (v - inject_Z f) (1 # 2)) eqn:C.
  - apply Qeq_alt in C. destruct (Z.even f).
    + split; lra.
    + rewrite inject_Z_plus. change (inject_Z 1) with 1. split; lra.
  - apply Qlt_alt in C. split; lra.
  - apply Qgt_alt in C. rewrite inject_Z_plus. change (inject_Z 1) with 1.
    split; lra.
Qed.






End SpotFacts.

(** ** Metres, degrees and image bounds *)

Section MetricFacts.
Import Metric.
Local Open Scope R_scope.

(** Between the poles the cosine of the latitude is positive. *)
Lemma cos_radians_pos (lat : R) : -90 < lat < 90 -> 0 < cos (radians lat).
Proof.
  intros [Hlo Hhi]. pose proof PI_RGT_0 as Hpi.
  apply cos_gt_0; unfold radians; nra.
Qed.

Lemma radians_0 : radians 0 = 0.
Proof. unfold radians. field. Qed.

(** Where the cosine of the centre latitude is not zero the two
    conversions are inverse to each other, in both directions. *)
Theorem meters_degrees_roundtrip (a b center_lat : R) :
  cos (radians center_lat) <> 0 ->
  degrees_to_meters (fst (meters_to_degrees a b center_lat))
                    (snd (meters_to_degrees a b center_lat)) center_lat
  = (a, b)
  /\ meters_to_degrees (fst (degrees_to_meters a b center_lat))
                       (snd (degrees_to_meters a b center_lat)) center_lat
     = (a, b).
Proof.
  intros Hc. unfold degrees_to_meters, meters_to_degrees. cbn [fst snd].
  split; f_equal; field; exact Hc.
Qed.

Lemma meters_degrees_roundtrip_witness :
  degrees_to_meters (fst (meters_to_degrees (-5) (-10) 0))
                    (snd (meters_to_degrees (-5) (-10) 0)) 0
  = (-5, -10).
Proof.
  apply (meters_degrees_roundtrip (-5) (-10) 0).
  rewrite radians_0, cos_0. lra.
Defined.

(** Strictly between the poles and for positive sizes and scale, the
    image bounds are proper and centred on the given point; the longitude
    extent does not depend on the latitude (the two cosines cancel), the
    latitude extent shrinks with the cosine of the latitude. *)
Theorem image_bounds_around_center (center_lat center_lon : R)
    (zoom image_width image_height scale : Z) :
  -90 < center_lat < 90 ->
  (0 < image_width)%Z -> (0 < image_height)%Z -> (0 < scale)%Z ->
  let '(min_lon, min_lat, max_lon, max_lat) :=
    calculate_image_bounds center_lat center_lon zoom
                           image_width image_height scale in
  min_lon < center_lon < max_lon /\ min_lat < center_lat < max_lat
  /\ center_lon - min_lon = max_lon - center_lon
  /\ center_lat - min_lat = max_lat - center_lat
  /\ max_lon - min_lon
     = IZR (image_width * scale) * equator_meters_per_pixel
       / (powerRZ 2 zoom * 111000)
  /\ max_lat - min_lat
     = IZR (image_height * scale) * equator_meters_per_pixel
       * cos (radians center_lat) / (powerRZ 2 zoom * 111000).
Proof.
  intros Hlat Hw Hh Hs. unfold calculate_image_bounds.
  pose proof (cos_radians_pos _ Hlat) as Hc.
  assert (Hp : 0 < powerRZ 2 zoom) by (apply powerRZ_lt; lra).
  assert (HW : 0 < IZR (image_width * scale)) by (apply IZR_lt; nia).
  assert (HH : 0 < IZR (image_height * scale)) by (apply IZR_lt; nia).
  set (c := cos (radians center_lat)) in *.
  set (p := powerRZ 2 zoom) in *.
  set (W := IZR (image_width * scale)) in *.
  set (H := IZR (image_height * scale)) in *.
  assert (Hk : 0 < equator_meters_per_pixel)
    by (unfold equator_meters_per_pixel; lra).
  set (k := equator_meters_per_pixel) in *.
  assert (Elon : W / 2 * (k * c / p) / (111000 * c) = W * k / (p * 111000) / 2)
    by (field; lra).
  assert (Elat : H / 2 * (k * c / p) / 111000 = H * k * c / (p * 111000) / 2)
    by (field; lra).
  rewrite Elon, Elat.
  assert (0 < W * k / (p * 111000)).
  { apply Rdiv_lt_0_compat; [nra | nra]. }
  assert (0 < H * k * c / (p * 111000)).
  { apply Rdiv_lt_0_compat; [|nra].
    apply Rmult_lt_0_compat; [nra | exact Hc]. }
  repeat split; lra.
Qed.

Lemma image_bounds_around_center_witness :
  let '(min_lon, min_lat, max_lon, max_lat) :=
    calculate_image_bounds 0 100 18 320 320 2 in
  min_lon < 100 < max_lon /\ min_lat < 0 < max_lat.
Proof.
  pose proof (image_bounds_around_center 0 100 18 320 320 2) as H.
  destruct (calculate_image_bounds 0 100 18 320 320 2) as [[[a b] c] d].
  destruct H as (Hlon & Hlat & _); [lra | lia | lia | lia |].
  split; assumption.
Defined.

(** The transformer halves the image size with [//] and doubles it again
    through the scale, so an odd size gives the bounds of the even size
    one below it; a size below 2 gives bounds that collapse to the centre
    point. *)
Theorem calculate_bounds_even_size (center_lat center_lon : R) (w h : Z) :
  calculate_bounds center_lat center_lon (w, h)
  = calculate_bounds center_lat center_lon (2 * (w / 2), 2 * (h / 2))%Z
  /\ (cos (radians center_lat) <> 0 ->
      (0 <= w < 2)%Z -> (0 <= h < 2)%Z ->
      calculate_bounds center_lat center_lon (w, h)
      = (center_lon, center_lat, center_lon, center_lat)).
Proof.
  split.
  - unfold calculate_bounds.
    rewrite !(Z.mul_comm 2), !Z.div_mul by discriminate. reflexivity.
  - intros Hc Hw Hh. unfold calculate_bounds, calculate_image_bounds.
    rewrite (Z.div_small w 2), (Z.div_small h 2) by lia.
    cbn [Z.mul].
    assert (Hp : powerRZ 2 18 <> 0) by (apply Rgt_not_eq, powerRZ_lt; lra).
    repeat f_equal; field; auto.
Qed.

Lemma calculate_bounds_even_size_witness :
  calculate_bounds 0 100 (1, 1)%Z = (100, 0, 100, 0).
Proof.
  apply (proj2 (calculate_bounds_even_size 0 100 1 1)); [|lia|lia].
  rewrite radians_0, cos_0. lra.
Defined.

End MetricFacts.

(** ** Summary statistics *)

Section SummaryFacts.
Import Priority Summary.

(** Counting: where at most one of four predicates holds, and only where a
    fifth holds, the four counts together do not exceed the fifth. *)
Lemma four_counts {A : Type} (c h m lo pl : A -> bool) (l : list A) :
  (forall p, In p l ->
     (c p || h p || m p || lo p = true -> pl p = true)
     /\ c p && h p = false /\ c p && m p = false /\ c p && lo p = false
     /\ h p && m p = false /\ h p && lo p = false /\ m p && lo p = false) ->
  (List.length (filter c l) + List.length (filter h l)
   + List.length (filter m l) + List.length (filter lo l)
   <= List.length (filter pl l))%nat.
Proof.
  induction l as [|p l IH]; intros H; [simpl; lia|].
  assert (IH' := IH (fun q Hq => H q (or_intror Hq))).
  destruct (H p (or_introl eq_refl)) as (Hin & H1 & H2 & H3 & H4 & H5 & H6).
  cbn [filter].
  destruct (c p), (h p), (m p), (lo p); try discriminate;
    cbn [orb] in Hin; try rewrite (Hin eq_refl);
    destruct (pl p); cbn [List.length]; lia.
Qed.

Lemma indices_same_shape {A B : Type} (a : Np.ndarray A) (b : Np.ndarray B) :
  Np.same_shape a b -> Np.indices a = Np.indices b.
Proof. intros [Hh Hw]. unfold Np.indices. now rewrite Hh, Hw. Qed.

Lemma sidewalk_priority_shape (sidewalk_mask : Np.ndarray bool) (max_points : R) :
  Np.same_shape (_calculate_sidewalk_priority sidewalk_mask max_points)
                sidewalk_mask.
Proof.
  unfold _calculate_sidewalk_priority.
  destruct (Np.any sidewalk_mask); cbn; split; reflexivity.
Qed.

Lemma calculate_shapes (shadow_intensity : Np.ndarray R)
    (sidewalk_mask building_mask street_mask vegetation_mask : Np.ndarray bool)
    (amenities_gdf : list Masks.geometry) (b : Geo.bounds)
    (r : priority_result) :
  calculate shadow_intensity sidewalk_mask building_mask street_mask
            vegetation_mask amenities_gdf b = Some r ->
  Np.same_shape (enhanced_priority_score r) sidewalk_mask
  /\ Np.same_shape (critical_priority r) sidewalk_mask
  /\ Np.same_shape (high_priority r) sidewalk_mask
  /\ Np.same_shape (medium_priority r) sidewalk_mask
  /\ Np.same_shape (low_priority r) sidewalk_mask.
Proof.
  unfold calculate.
  destruct (_calculate_amenity_priority _ _ _ _ _) as [amenity_score|];
    cbn [bind]; [|discriminate].
  intros H; inversion H; subst; clear H.
  cbn [enhanced_priority_score critical_priority high_priority
       medium_priority low_priority].
  repeat split; cbn; apply sidewalk_priority_shape.
Qed.

(** Rounding to an integer never crosses an integer. *)
Lemma py_round_between (v : Q) (lo hi : Z) :
  (inject_Z lo <= v <= inject_Z hi)%Q -> (lo <= Geo.py_round v <= hi)%Z.
Proof.
  intros [Hlo Hhi]. pose proof (py_round_error v) as E.
  apply Qabs_Qle_condition in E. destruct E as [E1 E2].
  split.
  - assert (H : (inject_Z lo < inject_Z (Geo.py_round v + 1))%Q)
      by (rewrite inject_Z_plus; change (inject_Z 1) with 1%Q; lra).
    rewrite <- Zlt_Qlt in H. lia.
  - assert (H : (inject_Z (Geo.py_round v) < inject_Z (hi + 1))%Q)
      by (rewrite inject_Z_plus; change (inject_Z 1) with 1%Q; lra).
    rewrite <- Zlt_Qlt in H. lia.
Qed.

Lemma ratio_percent (area total : Z) :
  (0 <= area <= total)%Z -> (0 < total)%Z ->
  (0 <= inject_Z area / inject_Z total * 100 <= 100)%Q.
Proof.
  intros Ha Ht.
  assert (Ht' : (0 < inject_Z total)%Q)
    by (change 0%Q with (inject_Z 0); now rewrite <- Zlt_Qlt).
  assert (Ha0 : (0 <= inject_Z area)%Q)
    by (change 0%Q with (inject_Z 0); rewrite <- Zle_Qle; lia).
  assert (Hat : (inject_Z area <= inject_Z total)%Q)
    by (rewrite <- Zle_Qle; lia).
  assert (Hq : (0 <= inject_Z area / inject_Z total <= 1)%Q).
  { split.
    - apply Qle_shift_div_l; [exact Ht' | lra].
    - apply Qle_shift_div_r; [exact Ht' | lra]. }
  split; lra.
Qed.

(** Rounding a percentage to one decimal keeps it a percentage. *)
Lemma round_percent (x : Q) :
  (0 <= x <= 100)%Q -> (0 <= Spots.py_round_to x 1 <= 100)%Q.
Proof.
  intros Hx. unfold Spots.py_round_to. change (Z.pow_pos 10 1) with 10%Z.
  destruct (py_round_between (x * inject_Z 10) 0 1000) as [R1 R2].
  { change (inject_Z 0) with 0%Q. change (inject_Z 10) with 10%Q.
    change (inject_Z 1000) with 1000%Q. split; lra. }
  rewrite Zle_Qle in R1, R2.
  change (inject_Z 0) with 0%Q in R1. change (inject_Z 1000) with 1000%Q in R2.
  set (k := inject_Z (Geo.py_round (x * inject_Z 10))) in *.
  change (inject_Z 10) with 10%Q.
  split.
  - apply Qle_shift_div_l; lra.
  - apply Qle_shift_div_r; lra.
Qed.

Lemma percentage_range (area total : Z) :
  (0 <= area <= total)%Z ->
  (0 <= percentage_of_plantable area total <= 100)%Q.
Proof.
  intros Ha. unfold percentage_of_plantable.
  destruct (Z.gtb_spec total 0) as [Ht | Ht]; [|split; lra].
  apply round_percent, ratio_percent; lia.
Qed.

Lemma range_length (n : Z) : List.length (Np.range n) = Z.to_nat n.
Proof. unfold Np.range. now rewrite length_map, length_seq. Qed.

Lemma indices_length {A : Type} (a : Np.ndarray A) :
  (0 <= Np.height a)%Z -> (0 <= Np.width a)%Z ->
  Z.of_nat (List.length (Np.indices a)) = (Np.height a * Np.width a)%Z.
Proof.
  intros Hh Hw. unfold Np.indices.
  assert (E : forall l : list Z,
             List.length
               (flat_map (fun y => List.map (pair y) (Np.range (Np.width a))) l)
             = (List.length l * Z.to_nat (Np.width a))%nat).
  { induction l as [|y l IH]; [reflexivity|].
    cbn [flat_map]. rewrite length_app, length_map, range_length, IH.
    cbn [List.length]. lia. }
  rewrite E, range_length. lia.
Qed.

Lemma np_sum_range (m : Np.ndarray bool) :
  (0 <= Np.height m)%Z -> (0 <= Np.width m)%Z ->
  (0 <= np_sum m <= Np.height m * Np.width m)%Z.
Proof.
  intros Hh Hw. unfold np_sum. rewrite <- (indices_length m Hh Hw).
  pose proof (filter_length_le (fun p => Np.get m (fst p) (snd p))
                               (Np.indices m)). lia.
Qed.

(** The four band areas of a result of [calculate] together never exceed
    the plantable area of the summary, so no band percentage leaves
    [0, 100], and the guard for an empty plantable area only ever replaces
    percentages of empty bands. *)
Theorem band_areas_within_plantable (shadow_intensity : Np.ndarray R)
    (sidewalk_mask building_mask street_mask vegetation_mask shadow_mask
       : Np.ndarray bool)
    (amenities_gdf : list Masks.geometry) (b : Geo.bounds)
    (r : priority_result) :
  one_grid shadow_intensity sidewalk_mask building_mask street_mask
           vegetation_mask ->
  calculate shadow_intensity sidewalk_mask building_mask street_mask
            vegetation_mask amenities_gdf b = Some r ->
  let a := count_areas r vegetation_mask building_mask shadow_mask in
  (0 <= critical_area a /\ 0 <= high_area a
   /\ 0 <= medium_area a /\ 0 <= low_area a)%Z
  /\ (critical_area a + high_area a + medium_area a + low_area a
      <= total_plantable a)%Z
  /\ (total_plantable a = 0%Z ->
      critical_area a = 0%Z /\ high_area a = 0%Z
      /\ medium_area a = 0%Z /\ low_area a = 0%Z)
  /\ (0 <= percentage_of_plantable (critical_area a) (total_plantable a)
      <= 100)%Q
  /\ (0 <= percentage_of_plantable (high_area a) (total_plantable a)
      <= 100)%Q
  /\ (0 <= percentage_of_plantable (medium_area a) (total_plantable a)
      <= 100)%Q
  /\ (0 <= percentage_of_plantable (low_area a) (total_plantable a)
      <= 100)%Q.
Proof.
  intros (Hsw & Hb & _ & _) Hcalc a.
  destruct (calculate_shapes _ _ _ _ _ _ _ _ Hcalc)
    as (_ & Sc & Sh & Sm & Sl).
  destruct (calculate_score _ _ _ _ _ _ _ _ Hcalc) as (am & _ & Hpix).
  assert (Hsum : (critical_area a + high_area a + medium_area a + low_area a
                  <= total_plantable a)%Z).
  { unfold a, count_areas.
    cbn [critical_area high_area medium_area low_area total_plantable].
    unfold np_sum.
    rewrite (indices_same_shape _ _ Sc), (indices_same_shape _ _ Sh),
            (indices_same_shape _ _ Sm), (indices_same_shape _ _ Sl).
    assert (Sp : Np.same_shape
                   (Np.and (Np.invert building_mask) (Np.invert vegetation_mask))
                   sidewalk_mask).
    { destruct Hb as [Hb1 Hb2], Hsw as [Hs1 Hs2]. split; cbn; congruence. }
    rewrite (indices_same_shape _ _ Sp).
    rewrite <- !Nat2Z.inj_add. apply Nat2Z.inj_le.
    apply four_counts. intros p _.
    destruct (Hpix (fst p) (snd p)) as (_ & Ec & Eh & Em & El).
    rewrite Ec, Eh, Em, El. cbn [Np.and Np.invert Np.zip_with Np.map Np.get].
    unfold PRIORITY_CRITICAL_MIN, PRIORITY_HIGH_MIN, PRIORITY_MEDIUM_MIN.
    set (score := Np.get (enhanced_priority_score r) (fst p) (snd p)).
    destruct (Np.get building_mask (fst p) (snd p)),
             (Np.get street_mask (fst p) (snd p)),
             (Np.get vegetation_mask (fst p) (snd p));
      cbn [negb andb]; rewrite ?andb_false_r; cbn [orb andb];
      try (repeat split; (reflexivity || discriminate)).
    rewrite !andb_true_r.
    destruct (Rleb 80 score) eqn:E1; [apply Rleb_true in E1 | apply Rleb_false in E1];
    destruct (Rleb 60 score) eqn:E2; [apply Rleb_true in E2 | apply Rleb_false in E2 | apply Rleb_true in E2 | apply Rleb_false in E2];
    destruct (Rleb 40 score) eqn:E3;
    destruct (Rltb score 80) eqn:E4;
    destruct (Rltb score 60) eqn:E5;
    destruct (Rltb score 40) eqn:E6;
    try apply Rleb_true in E3; try apply Rleb_false in E3;
    try apply Rltb_true in E4; try apply Rltb_false in E4;
    try apply Rltb_true in E5; try apply Rltb_false in E5;
    try apply Rltb_true in E6; try apply Rltb_false in E6;
    try lra; cbn; rewrite ?andb_false_r; repeat split; reflexivity. }
  assert (Hnn : forall m : Np.ndarray bool, (0 <= np_sum m)%Z)
    by (intros m; unfold np_sum; lia).
  assert (H0 : (0 <= critical_area a /\ 0 <= high_area a
                /\ 0 <= medium_area a /\ 0 <= low_area a)%Z)
    by (unfold a, count_areas; cbn; repeat split; apply Hnn).
  split; [exact H0|]. split; [exact Hsum|]. split; [lia|].
  repeat split; apply percentage_range; lia.
Qed.

Lemma band_areas_within_plantable_witness :
  exists r,
    calculate (Np.full 3 3 0%R)
              (Np.Array 3 3 (fun y x => (x =? 0)%Z))
              (Np.full 3 3 false) (Np.full 3 3 false) (Np.full 3 3 false)
              [] (Geo.Bounds 0 0 1 1) = Some r
    /\ let a := count_areas r (Np.full 3 3 false) (Np.full 3 3 false)
                            (Np.full 3 3 false) in
       (critical_area a + high_area a + medium_area a + low_area a
        <= total_plantable a)%Z.
Proof.
  destruct calculate_sample_returns as [r Hr].
  exists r. split; [exact Hr|].
  pose proof (fun G => band_areas_within_plantable _ _ _ _ _
                         (Np.full 3 3 false) _ _ r G Hr) as H.
  cbv zeta in H. destruct H as (_ & H & _).
  - repeat split; reflexivity.
  - exact H.
Defined.

(** The land-coverage counts of masks on the grid of the score lie between
    0 and the number of pixels; their percentage, which is not guarded,
    raises on an image without pixels and otherwise lies in [0, 100]. *)
Theorem coverage_percentages (r : priority_result)
    (vegetation_mask building_mask shadow_mask : Np.ndarray bool) :
  (0 <= Np.height (enhanced_priority_score r))%Z ->
  (0 <= Np.width (enhanced_priority_score r))%Z ->
  Np.same_shape vegetation_mask (enhanced_priority_score r) ->
  Np.same_shape building_mask (enhanced_priority_score r) ->
  Np.same_shape shadow_mask (enhanced_priority_score r) ->
  let a := count_areas r vegetation_mask building_mask shadow_mask in
  forall area,
    In area [vegetation_area a; building_area a; shadow_area a;
             total_plantable a] ->
    (0 <= area <= total_pixels a)%Z
    /\ (total_pixels a = 0%Z -> percentage area (total_pixels a) = None)
    /\ ((0 < total_pixels a)%Z ->
        exists p, percentage area (total_pixels a) = Some p
                  /\ (0 <= p <= 100)%Q).
Proof.
  intros Hh Hw [Sv1 Sv2] [Sb1 Sb2] [Ss1 Ss2] a area Hin.
  assert (Hr : (0 <= area <= total_pixels a)%Z).
  { unfold a, count_areas in *.
    cbn [vegetation_area building_area shadow_area total_plantable
         total_pixels] in *.
    rewrite <- Sv1 at 1. rewrite <- Sv2 at 1.
    destruct Hin as [<- | [<- | [<- | [<- | []]]]].
    - apply np_sum_range; congruence.
    - rewrite Sv1, Sv2, <- Sb1, <- Sb2. apply np_sum_range; congruence.
    - rewrite Sv1, Sv2, <- Ss1, <- Ss2. apply np_sum_range; congruence.
    - rewrite Sv1, Sv2, <- Sb1, <- Sb2.
      apply (np_sum_range
               (Np.and (Np.invert building_mask) (Np.invert vegetation_mask)));
        cbn; congruence. }
  split; [exact Hr|]. unfold percentage. split.
  - intros ->. reflexivity.
  - intros Ht. rewrite py_div_nonzero.
    + cbn [bind]. eexists. split; [reflexivity|].
      apply round_percent, ratio_percent; lia.
    + apply inject_Z_nonzero. lia.
Qed.

Lemma coverage_percentages_witness :
  let r := PriorityResult (Np.full 2 2 0%R) (Np.full 2 2 false)
             (Np.full 2 2 false) (Np.full 2 2 false) (Np.full 2 2 false)
             (Np.full 2 2 0%R) (Np.full 2 2 0%R) (Np.full 2 2 0%R)
             (Np.full 2 2 0%R) in
  let a := count_areas r (Np.full 2 2 false)
                       (Np.Array 2 2 (fun y x => (x =? 0)%Z))
                       (Np.full 2 2 true) in
  (0 <= building_area a <= total_pixels a)%Z.
Proof.
  intros r a.
  apply (coverage_percentages r (Np.full 2 2 false)
           (Np.Array 2 2 (fun y x => (x =? 0)%Z)) (Np.full 2 2 true));
    [discriminate | discriminate | split; reflexivity | split; reflexivity
     | split; reflexivity | right; left; reflexivity].
Defined.

End SummaryFacts.

(** ** Vegetation and shadow detection *)

Section DetectorFacts.
Import Detector.
Local Open Scope R_scope.

Lemma uint8_real (a : Np.ndarray Z) (y x : Z) :
  uint8 a -> 0 <= IZR (Np.get a y x) <= 255.
Proof.
  intros H. destruct (H y x) as [H0 H1].
  split; [apply (IZR_le 0) | apply (IZR_le _ 255)]; assumption.
Qed.

(** The NDVI of a uint8 image lies strictly between -1 and 1 on every
    pixel, is 0 where the two channels agree (black pixels included: the
    added 1e-8 keeps the divisor positive), and a vegetation pixel has
    more than 1.5 times as much green as red and a value above 60. *)
Theorem ndvi_range (img : image) (y x : Z) :
  uint8 (red img) -> uint8 (green img) ->
  let '(vegetation_mask, ndvi) := _detect_vegetation img in
  -1 < Np.get ndvi y x < 1
  /\ (Np.get (green img) y x = Np.get (red img) y x -> Np.get ndvi y x = 0)
  /\ (Np.get vegetation_mask y x = true ->
      (3 * Np.get (red img) y x < 2 * Np.get (green img) y x)%Z
      /\ (60 < Np.get (value img) y x)%Z).
Proof.
  intros Hr Hg. unfold _detect_vegetation.
  cbn [Np.get Np.zip_with Np.map astype_float Np.and Priority.gt_ igt_
       Np.height Np.width].
  pose proof (uint8_real _ y x Hr) as Br.
  pose proof (uint8_real _ y x Hg) as Bg.
  set (r := Np.get (red img) y x) in *.
  set (g := Np.get (green img) y x) in *.
  assert (Hd : 0 < IZR g + IZR r + 1e-8) by lra.
  split; [|split].
  - split.
    + apply (Rmult_lt_reg_r (IZR g + IZR r + 1e-8)); [exact Hd|].
      unfold Rdiv. rewrite Rmult_assoc, Rinv_l by lra. lra.
    + apply (Rmult_lt_reg_r (IZR g + IZR r + 1e-8)); [exact Hd|].
      unfold Rdiv. rewrite Rmult_assoc, Rinv_l by lra. lra.
  - intros E. rewrite E. unfold Rdiv. rewrite Rminus_diag. apply Rmult_0_l.
  - intros Hv. apply andb_true_iff in Hv. destruct Hv as [Hn Hb].
    apply Rltb_true in Hn. unfold NDVI_THRESHOLD in Hn.
    unfold MIN_VEGETATION_BRIGHTNESS in Hb. apply Z.ltb_lt in Hb.
    split; [|exact Hb].
    apply (Rmult_lt_compat_r (IZR g + IZR r + 1e-8)) in Hn; [|exact Hd].
    unfold Rdiv in Hn. rewrite Rmult_assoc, Rinv_l in Hn by lra.
    apply lt_IZR. rewrite !mult_IZR. lra.
Qed.

Lemma ndvi_range_witness :
  let img := Image (Np.full 2 2 40%Z) (Np.full 2 2 90%Z)
                   (Np.full 2 2 100%Z) (Np.full 2 2 90%Z) in
  let '(vegetation_mask, ndvi) := _detect_vegetation img in
  -1 < Np.get ndvi 0 0 < 1.
Proof.
  intros img.
  pose proof (ndvi_range img 0 0) as H.
  destruct (_detect_vegetation img) as [vegetation_mask ndvi].
  apply H; intros y x; cbn; lia.
Defined.

(** Before the cleanup no vegetation pixel is a shadow pixel and every
    shadow pixel has a value below 95; a pixel that is not vegetation is a
    shadow pixel exactly when its value is below 70, or below 95 with a
    saturation below 60. *)
Theorem shadows_exclude_vegetation (img : image) (y x : Z) :
  let '(shadow_combined, vegetation_mask, ndvi) := detect_before_cleanup img in
  let v := Np.get (value img) y x in
  let s := Np.get (saturation img) y x in
  (Np.get shadow_combined y x = true ->
   Np.get vegetation_mask y x = false /\ (v < 95)%Z)
  /\ (Np.get vegetation_mask y x = false ->
      (Np.get shadow_combined y x = true
       <-> (v < 70)%Z \/ ((v < 95)%Z /\ (s < 60)%Z))).
Proof.
  unfold detect_before_cleanup.
  destruct (_detect_vegetation img) as [vegetation_mask ndvi].
  cbn [Np.get Np.or Np.and Np.invert Np.zip_with Np.map
       _detect_shadows_very_dark _detect_shadows_simple ilt_
       Np.height Np.width].
  unfold SHADOW_VERY_DARK_THRESHOLD, SHADOW_BRIGHTNESS_THRESHOLD,
         SHADOW_DESATURATION_THRESHOLD.
  destruct (Z.ltb_spec (Np.get (value img) y x) 70),
           (Z.ltb_spec (Np.get (value img) y x) 95),
           (Z.ltb_spec (Np.get (saturation img) y x) 60),
           (Np.get vegetation_mask y x);
    cbn; repeat split; intros; try discriminate; try reflexivity; try lia.
Qed.

(** For a uint8 value channel the shadow intensity is [1 - v / 255], lies
    in [0, 1] before it is clipped, and gives the sun component 20 for a
    value of at least 179, 12 for a value from 103 to 178 and 5 for a value
    of at most 102. *)
Theorem sun_score_by_brightness (img : image) (y x : Z) :
  uint8 (value img) ->
  let v := Np.get (value img) y x in
  let shadow_intensity := calculate_shadow_intensity img in
  let sun :=
    Np.get (Priority._calculate_sun_priority shadow_intensity
                                             Priority.SCORE_SUN) y x in
  Np.get shadow_intensity y x = 1 - IZR v / 255
  /\ 0 <= Np.get shadow_intensity y x <= 1
  /\ ((179 <= v)%Z -> sun = 20)
  /\ ((103 <= v <= 178)%Z -> sun = 12)
  /\ ((v <= 102)%Z -> sun = 5).
Proof.
  intros Hv v shadow_intensity sun.
  pose proof (uint8_real _ y x Hv) as Bv. fold v in Bv.
  assert (E : Np.get shadow_intensity y x = 1 - IZR v / 255).
  { unfold shadow_intensity, calculate_shadow_intensity, clip, astype_float.
    cbn [Np.get Np.map]. fold v.
    rewrite Rmax_left by lra. rewrite Rmin_left by lra. reflexivity. }
  split; [exact E|]. split; [rewrite E; lra|].
  unfold sun, Priority._calculate_sun_priority.
  cbn [Np.get Np.assign_where Np.full_like Np.and Np.zip_with Np.map
       Priority.lt_ Priority.ge_].
  rewrite E.
  repeat split; intros H.
  - assert (179 <= IZR v) by (apply (IZR_le 179); lia).
    rewrite (proj2 (Rleb_false 0.6 _)) by lra.
    rewrite (proj2 (Rleb_false 0.3 _)) by lra. cbn [andb].
    rewrite (proj2 (Rltb_true _ 0.3)) by lra. reflexivity.
  - assert (103 <= IZR v) by (apply (IZR_le 103); lia).
    assert (IZR v <= 178) by (apply (IZR_le _ 178); lia).
    rewrite (proj2 (Rleb_false 0.6 _)) by lra.
    rewrite (proj2 (Rleb_true 0.3 _)) by lra.
    rewrite (proj2 (Rltb_true _ 0.6)) by lra. reflexivity.
  - assert (IZR v <= 102) by (apply (IZR_le _ 102); lia).
    rewrite (proj2 (Rleb_true 0.6 _)) by lra. reflexivity.
Qed.

Lemma sun_score_by_brightness_witness :
  let img := Image (Np.full 2 2 40%Z) (Np.full 2 2 90%Z)
                   (Np.full 2 2 100%Z) (Np.full 2 2 200%Z) in
  Np.get (Priority._calculate_sun_priority (calculate_shadow_intensity img)
                                           Priority.SCORE_SUN) 0 0 = 20.
Proof.
  intros img.
  destruct (sun_score_by_brightness img 0 0) as (_ & _ & H & _).
  - intros y x. cbn. lia.
  - apply H. cbn. lia.
Defined.

End DetectorFacts.
